(** * Mock CRM API server (mock-crm/mock-crm-api.py)

    A shallow embedding of the Flask handlers of the mock CRM service and
    of the parts of the Python runtime they rely on, followed by the
    properties of the handlers.

    Conventions.
    - A Python [dict] with string keys is a [gmap string json]; a Python
      list is a [list].
    - The module-level globals [contacts_db] and [contact_counter] form
      the record [state]; every handler is a function from the state to a
      response and the next state.
    - An exception is a value of [exn]; an exception that no [except]
      clause of the handler catches leaves the handler as [Crash e]
      (Flask answers such a request with status 500).
    - Query parameters that the handlers pass through [int(...)] are taken
      after that conversion, as [option Z] ([None]: parameter absent, the
      default of [request.args.get] applies).
    - The values obtained from [random], [Faker] and the clock during one
      run of [generate_mock_contact] are supplied by a [draw]. *)

From Stdlib Require Import ZArith Ascii String Lia.
From stdpp Require Import gmap strings list fin_maps pretty.

#[local] Set Warnings "-register-all".
#[local] Open Scope string_scope.
#[local] Open Scope list_scope.
#[local] Open Scope Z_scope.

(** ** Python runtime: exceptions, truthiness, slicing, [str.replace] *)

Inductive exn := ValueError | TypeError | KeyError | AttributeError.

(** A computation that either raises or returns. *)
Definition result (A : Type) : Type := exn + A.

Definition raise {A} (e : exn) : result A := inl e.
Definition ok {A} (a : A) : result A := inr a.

#[global] Instance result_bind : MBind result :=
  λ A B f m, match m with inl e => inl e | inr a => f a end.

(** The value of [int(...)]-converted optional query parameter
    [request.args.get(name, dflt)]. *)
Definition arg_or (dflt : Z) (a : option Z) : Z := default dflt a.

(** [l[start:stop]] for a list [l] and integers [start], [stop]: a negative
    index counts from the end, then both are clamped to [0, len(l)]. *)
Definition slice_index (n i : Z) : Z :=
  if i <? 0 then Z.max 0 (i + n) else Z.min i n.

Definition py_slice {A} (l : list A) (start stop : Z) : list A :=
  let n := Z.of_nat (length l) in
  let lo := slice_index n start in
  let hi := slice_index n stop in
  take (Z.to_nat (hi - lo)) (drop (Z.to_nat lo) l).

(** [s.replace('Z', '+00:00')]. *)
Fixpoint replace_Z (s : string) : string :=
  match s with
  | EmptyString => EmptyString
  | String c r =>
      if Ascii.eqb c "Z" then "+00:00" +:+ replace_Z r
      else String c (replace_Z r)
  end.

(** ** JSON values, as produced by [request.json] and consumed by [jsonify]

    Numbers are the integers: no handler computes with a number of the
    payload, and the only numbers it produces are integers. *)

Inductive json :=
  | JNull
  | JBool (b : bool)
  | JInt (n : Z)
  | JStr (s : string)
  | JList (l : list json)
  | JObj (m : gmap string json).

(** Python truth value of a decoded JSON document ([if data:]). *)
Definition truthy (v : json) : bool :=
  match v with
  | JNull => false
  | JBool b => b
  | JInt n => negb (n =? 0)
  | JStr s => negb (String.eqb s "")
  | JList l => negb (bool_decide (length l = 0%nat))
  | JObj m => negb (bool_decide (size m = 0%nat))
  end.

(** [v == s] for a JSON value [v] and a string [s]: values of different
    types are never equal. *)
Definition eq_str (v : json) (s : string) : bool :=
  match v with
  | JStr t => String.eqb t s
  | _ => false
  end.

(** ** [datetime]: the fields of a Python [datetime] object

    [tzinfo] is [None] for a naive value and [Some off] for an aware one,
    [off] being its UTC offset in microseconds. *)

Module datetime.

Record t := make {
  year : Z; month : Z; day : Z;
  hour : Z; minute : Z; second : Z; microsecond : Z;
  tzinfo : option Z
}.

Definition is_leap (y : Z) : bool :=
  (y mod 4 =? 0) && (negb (y mod 100 =? 0) || (y mod 400 =? 0)).

Definition days_in_month (y m : Z) : Z :=
  match m with
  | 1 => 31 | 2 => if is_leap y then 29 else 28 | 3 => 31 | 4 => 30
  | 5 => 31 | 6 => 30 | 7 => 31 | 8 => 31 | 9 => 30 | 10 => 31
  | 11 => 30 | _ => 31
  end.

Definition days_before_year (y : Z) : Z :=
  let p := y - 1 in p * 365 + p / 4 - p / 100 + p / 400.

Fixpoint days_before_month_from (y : Z) (k : nat) (m : Z) : Z :=
  match k with
  | O => 0
  | S k' => days_in_month y (m - 1) + days_before_month_from y k' (m - 1)
  end.

Definition days_before_month (y m : Z) : Z :=
  days_before_month_from y (Z.to_nat (m - 1)) m.

Definition toordinal (d : t) : Z :=
  days_before_year (year d) + days_before_month (year d) (month d) + day d.

Definition day_micros : Z := 86400 * 1000000.

(** Microseconds of the wall-clock reading since ordinal day 0. *)
Definition wall_micros (d : t) : Z :=
  toordinal d * day_micros
  + ((hour d * 60 + minute d) * 60 + second d) * 1000000
  + microsecond d.

(** The range checks of the [datetime] and [timezone] constructors. *)
Definition in_range (lo hi x : Z) : bool := (lo <=? x) && (x <=? hi).

Definition valid (d : t) : bool :=
  in_range 1 9999 (year d) && in_range 1 12 (month d)
  && in_range 1 (days_in_month (year d) (month d)) (day d)
  && in_range 0 23 (hour d) && in_range 0 59 (minute d)
  && in_range 0 59 (second d) && in_range 0 999999 (microsecond d)
  && match tzinfo d with
     | None => true
     | Some off => (- day_micros <? off) && (off <? day_micros)
     end.

Definition naive (d : t) : bool :=
  match tzinfo d with None => true | Some _ => false end.

(** *** Comparison *)

Definition lex (c1 c2 : comparison) : comparison :=
  match c1 with Eq => c2 | _ => c1 end.

(** Comparison of the field tuples
    [(year, month, day, hour, minute, second, microsecond)]. *)
Definition fields_cmp (a b : t) : comparison :=
  lex (year a ?= year b) (lex (month a ?= month b) (lex (day a ?= day b)
  (lex (hour a ?= hour b) (lex (minute a ?= minute b)
  (lex (second a ?= second b) (microsecond a ?= microsecond b)))))).

(** [datetime._cmp]: equal offsets (or two naive values) compare by
    fields; a naive and an aware value do not compare ([TypeError]); two
    aware values with different offsets compare as instants. *)
Definition cmp (a b : t) : result comparison :=
  match tzinfo a, tzinfo b with
  | None, None => ok (fields_cmp a b)
  | Some oa, Some ob =>
      if oa =? ob then ok (fields_cmp a b)
      else ok ((wall_micros a - oa) ?= (wall_micros b - ob))
  | _, _ => raise TypeError
  end.

(** [a > b] *)
Definition gt (a b : t) : result bool :=
  c ← cmp a b; ok (match c with Gt => true | _ => false end).


(** *** [isoformat] *)

Definition dchar (d : Z) : ascii :=
  match d with
  | 0 => "0" | 1 => "1" | 2 => "2" | 3 => "3" | 4 => "4"
  | 5 => "5" | 6 => "6" | 7 => "7" | 8 => "8" | _ => "9"
  end%char.

(** The [k] low decimal digits of [n], most significant first, followed
    by [rest] (the [%0kd] of a number below [10^k]). *)
Fixpoint zfill (k : nat) (n : Z) (rest : string) : string :=
  match k with
  | O => rest
  | S k' => zfill k' (n / 10) (String (dchar (n mod 10)) rest)
  end.

(** [hh:mm[:ss[.ffffff]]] of a duration of [us >= 0] microseconds, as
    [_format_offset] prints the magnitude of a UTC offset. *)
Definition format_offset_abs (us : Z) : string :=
  let secs := us / 1000000 in
  let frac := us mod 1000000 in
  let h := secs / 3600 in
  let m := (secs mod 3600) / 60 in
  let s := secs mod 60 in
  zfill 2 h (String ":" (zfill 2 m
    (if (s =? 0) && (frac =? 0) then ""
     else String ":" (zfill 2 s
       (if frac =? 0 then "" else String "." (zfill 6 frac "")))))).

Definition format_offset (o : option Z) : string :=
  match o with
  | None => ""
  | Some off =>
      if off <? 0 then String "-" (format_offset_abs (- off))
      else String "+" (format_offset_abs off)
  end.

(** [.ffffff], printed only when the microsecond field is not zero. *)
Definition frac_part (us : Z) : string :=
  if us =? 0 then "" else String "." (zfill 6 us "").

(** [d.isoformat()]: [YYYY-MM-DDTHH:MM:SS], then the fraction, then the
    UTC offset of an aware value. *)
Definition isoformat (d : t) : string :=
  zfill 4 (year d) (String "-" (zfill 2 (month d) (String "-"
  (zfill 2 (day d) (String "T" (zfill 2 (hour d) (String ":"
  (zfill 2 (minute d) (String ":" (zfill 2 (second d)
  (frac_part (microsecond d) +:+ format_offset (tzinfo d)))))))))))).

(** *** [fromisoformat]

    The documented grammar of [datetime.fromisoformat] (Python 3.7 to
    3.10; later versions accept further ISO 8601 forms):
    [YYYY-MM-DD[*HH[:MM[:SS[.fff[fff]]]][+HH:MM[:SS[.ffffff]]]]], where
    [*] is any single character.  [None] stands for [ValueError]. *)

Definition digit (c : ascii) : option Z :=
  let n := Z.of_N (N_of_ascii c) in
  if (48 <=? n) && (n <=? 57) then Some (n - 48) else None.

(** Read exactly [k] decimal digits. *)
Fixpoint digits (k : nat) (acc : Z) (s : string) : option (Z * string) :=
  match k with
  | O => Some (acc, s)
  | S k' =>
      match s with
      | EmptyString => None
      | String c r => d ← digit c; digits k' (10 * acc + d) r
      end
  end.

(** Read the character [c]. *)
Definition expect (c : ascii) (s : string) : option string :=
  match s with
  | EmptyString => None
  | String c' r => if Ascii.eqb c c' then Some r else None
  end.

Definition is_sign (c : ascii) : bool := Ascii.eqb c "+" || Ascii.eqb c "-".

(** Split a time string at its first [+] or [-]: the part before it, and
    the sign ([true] for [-]) with the part after it. *)
Fixpoint split_sign (s : string) : string * option (bool * string) :=
  match s with
  | EmptyString => (EmptyString, None)
  | String c r =>
      if is_sign c then (EmptyString, Some (Ascii.eqb c "-", r))
      else let '(a, b) := split_sign r in (String c a, b)
  end.

(** [HH[:MM[:SS[.fff[fff]]]]] *)
Definition parse_hh_mm_ss_ff (s : string) : option (Z * Z * Z * Z) :=
  '(h, r) ← digits 2 0 s;
  if String.eqb r "" then Some (h, 0, 0, 0) else
  r ← expect ":" r;
  '(m, r) ← digits 2 0 r;
  if String.eqb r "" then Some (h, m, 0, 0) else
  r ← expect ":" r;
  '(sec, r) ← digits 2 0 r;
  if String.eqb r "" then Some (h, m, sec, 0) else
  r ← expect "." r;
  match String.length r with
  | 3%nat => '(f, _) ← digits 3 0 r; Some (h, m, sec, f * 1000)
  | 6%nat => '(f, _) ← digits 6 0 r; Some (h, m, sec, f)
  | _ => None
  end.

(** [HH:MM], [HH:MM:SS] or [HH:MM:SS.ffffff] after the sign. *)
Definition parse_tz (neg : bool) (s : string) : option Z :=
  match String.length s with
  | 5%nat | 8%nat | 15%nat =>
      '(h, m, sec, f) ← parse_hh_mm_ss_ff s;
      let us := ((h * 60 + m) * 60 + sec) * 1000000 + f in
      Some (if neg then - us else us)
  | _ => None
  end.

Definition parse_time (s : string) : option (Z * Z * Z * Z * option Z) :=
  let '(ts, tz) := split_sign s in
  '(h, m, sec, f) ← parse_hh_mm_ss_ff ts;
  match tz with
  | None => Some (h, m, sec, f, None)
  | Some (neg, zs) => off ← parse_tz neg zs; Some (h, m, sec, f, Some off)
  end.

Definition checked (d : t) : option t := if valid d then Some d else None.

Definition fromisoformat (s : string) : option t :=
  '(y, r) ← digits 4 0 s;
  r ← expect "-" r;
  '(mo, r) ← digits 2 0 r;
  r ← expect "-" r;
  '(d, r) ← digits 2 0 r;
  match r with
  | EmptyString => checked (make y mo d 0 0 0 0 None)
  | String _ ts =>
      '(h, mi, sec, f, tz) ← parse_time ts;
      checked (make y mo d h mi sec f tz)
  end.

End datetime.


(** ** The service state and the contact generator *)

Abbreviation contact := (gmap string json).

(** The module-level globals. *)
Record state := mk_state {
  contacts_db : list contact;
  contact_counter : Z
}.

(** [contacts_db = []], [contact_counter = 1000]. *)
Definition initial_state : state := mk_state [] 1000.

(** The values that one run of [generate_mock_contact] obtains from
    [Faker], [random] and the clock, in the order of the dict literal. *)
Record draw := mk_draw {
  first_name : string;        (* fake.first_name() *)
  last_name_upper : string;   (* fake.last_name().upper() *)
  email : string;             (* fake.email() *)
  phone : string;             (* random.choice(phone_formats)() *)
  company : string;           (* random.choice(companies) *)
  job_title : string;         (* random.choice(job_titles) *)
  tags : list string;         (* random.sample(tag_options, k=...) *)
  created_at : datetime.t;    (* fake.date_time_between('-30d', 'now') *)
  now : datetime.t;           (* datetime.now() *)
  lead_score : Z;             (* random.randint(10, 100) *)
  notes : string              (* fake.text(max_nb_chars=100) *)
}.

(** [f"mock_crm_{contact_counter}"] *)
Definition mock_id (counter : Z) : string := "mock_crm_" +:+ pretty counter.

Definition generate_mock_contact (d : draw) (st : state) : contact * state :=
  let counter := contact_counter st + 1 in
  let c : contact := list_to_map [
    ("id", JStr (mock_id counter));
    ("firstName", JStr (first_name d));
    ("lastName", JStr (last_name_upper d));
    ("email", JStr (email d));
    ("phone", JStr (phone d));
    ("company", JStr (company d));
    ("jobTitle", JStr (job_title d));
    ("tags", JList (JStr <$> tags d));
    ("createdAt", JStr (datetime.isoformat (created_at d)));
    ("lastModified", JStr (datetime.isoformat (now d)));
    ("source", JStr "website_form");
    ("leadScore", JInt (lead_score d));
    ("notes", JStr (notes d))
  ] in
  (c, mk_state (contacts_db st) counter).

(** [contacts_db.append(c)] *)
Definition append_contact (c : contact) (st : state) : state :=
  mk_state (contacts_db st ++ [c]) (contact_counter st).

(** [for _ in range(n): contacts_db.append(generate_mock_contact())], the
    [i]-th iteration using [draws i]. *)
Fixpoint seed_loop (n : nat) (draws : nat → draw) (i : nat) (st : state)
    : state :=
  match n with
  | O => st
  | S n' =>
      let '(c, st1) := generate_mock_contact (draws i) st in
      seed_loop n' draws (S i) (append_contact c st1)
  end.

(** The state after the module has been loaded. *)
Definition startup (draws : nat → draw) : state :=
  seed_loop 50 draws 0 initial_state.

(** ** Responses *)

Inductive response :=
  | Reply (status : Z) (body : json)   (* [return jsonify(body), status] *)
  | Crash (e : exn).                   (* uncaught exception *)

Definition error_body (msg : string) : json := JObj {[ "error" := JStr msg ]}.

(** ** [GET /api/contacts] *)

(** [c[k]] *)
Definition getitem (c : contact) (k : string) : result json :=
  match c !! k with
  | Some v => ok v
  | None => raise KeyError
  end.

(** [datetime.fromisoformat(v)] for a decoded JSON value [v]. *)
Definition fromisoformat_value (v : json) : result datetime.t :=
  match v with
  | JStr s =>
      match datetime.fromisoformat s with
      | Some d => ok d
      | None => raise ValueError
      end
  | _ => raise TypeError
  end.

(** [[c for c in db if datetime.fromisoformat(c['lastModified']) > since_dt]] *)
Fixpoint modified_after (since_dt : datetime.t) (db : list contact)
    : result (list contact) :=
  match db with
  | [] => ok []
  | c :: rest =>
      v ← getitem c "lastModified";
      d ← fromisoformat_value v;
      b ← datetime.gt d since_dt;
      r ← modified_after since_dt rest;
      ok (if b : bool then c :: r else r)
  end.

(** The [try] block, entered when [since] is a non-empty string. *)
Definition filter_since (since : string) (db : list contact)
    : result (list contact) :=
  since_dt ← fromisoformat_value (JStr (replace_Z since));
  modified_after since_dt db.

(** [filtered_contacts] at the end of the filtering step. *)
Definition filtered_contacts (since : option string) (db : list contact)
    : result (list contact) :=
  match since with
  | None => ok db
  | Some s => if String.eqb s "" then ok db else filter_since s db
  end.

Definition effective_limit (limit : option Z) : Z :=
  Z.min (arg_or 20 limit) 100.

Definition listing_body (contacts : list contact) (total limit offset : Z)
    (now : datetime.t) : json :=
  JObj {[
    "contacts" := JList (JObj <$> contacts);
    "pagination" := JObj {[
      "total" := JInt total;
      "limit" := JInt limit;
      "offset" := JInt offset;
      "hasMore" := JBool (offset + limit <? total)
    ]};
    "timestamp" := JStr (datetime.isoformat now)
  ]}.

Definition get_contacts (limit offset : option Z) (since : option string)
    (now : datetime.t) (st : state) : response * state :=
  let limit := effective_limit limit in
  let offset := arg_or 0 offset in
  match filtered_contacts since (contacts_db st) with
  | inl ValueError =>
      (Reply 400 (error_body "Invalid 'since' date format. Use ISO format."),
       st)
  | inl e => (Crash e, st)
  | inr filtered =>
      let total := Z.of_nat (length filtered) in
      let contacts := py_slice filtered offset (offset + limit) in
      (Reply 200 (listing_body contacts total limit offset now), st)
  end.

(** ** [GET /api/contacts/<contact_id>] *)

(** [next((c for c in db if c['id'] == contact_id), None)] *)
Fixpoint find_contact (contact_id : string) (db : list contact)
    : result (option contact) :=
  match db with
  | [] => ok None
  | c :: rest =>
      v ← getitem c "id";
      if eq_str v contact_id then ok (Some c)
      else find_contact contact_id rest
  end.

(** [not contact], for [contact] a dict or [None]. *)
Definition falsy_contact (o : option contact) : bool :=
  match o with
  | None => true
  | Some c => bool_decide (size c = 0%nat)
  end.

Definition get_contact (contact_id : string) (st : state)
    : response * state :=
  match find_contact contact_id (contacts_db st) with
  | inl e => (Crash e, st)
  | inr o =>
      if falsy_contact o then (Reply 404 (error_body "Contact not found"), st)
      else (Reply 200 (from_option JObj JNull o), st)
  end.

(** ** [POST /api/contacts] *)

(** [{k: v for k, v in data.items() if k != 'id'}] *)
Definition without_id (data : gmap string json) : gmap string json :=
  filter (λ kv, kv.1 ≠ "id") data.

(** [c.update(fields)]; the union of [gmap] prefers its left operand. *)
Definition update (c fields : gmap string json) : contact := fields ∪ c.

Definition create_contact (data : json) (d : draw) (st : state)
    : response * state :=
  let '(c, st1) := generate_mock_contact d st in
  if truthy data then
    match data with
    | JObj fields =>
        let c' := update c (without_id fields) in
        (Reply 201 (JObj c'), append_contact c' st1)
    | _ => (Crash AttributeError, st1)   (* no [items] attribute *)
    end
  else (Reply 201 (JObj c), append_contact c st1).

(** ** [POST /api/contacts/simulate] *)

Fixpoint simulate_loop (n : nat) (draws : nat → draw) (i : nat)
    (new_contacts : list contact) (st : state) : list contact * state :=
  match n with
  | O => (new_contacts, st)
  | S n' =>
      let '(c, st1) := generate_mock_contact (draws i) st in
      simulate_loop n' draws (S i) (new_contacts ++ [c]) (append_contact c st1)
  end.

(** The number of iterations of [for _ in range(k)]. *)
Definition range_len (k : Z) : nat := Z.to_nat k.

Definition simulate_body (new_contacts : list contact) : json :=
  JObj {[
    "message" := JStr ("Created " +:+ pretty (length new_contacts)
                       +:+ " new contacts");
    "contacts" := JList (JObj <$> new_contacts)
  ]}.

Definition simulate_new_contacts (count : option Z) (draws : nat → draw)
    (st : state) : response * state :=
  let count := arg_or 5 count in
  let '(new_contacts, st') :=
    simulate_loop (range_len (Z.min count 20)) draws 0 [] st in
  (Reply 200 (simulate_body new_contacts), st').

(** ** Requests and runs *)

Inductive request :=
  | GetContacts (limit offset : option Z) (since : option string)
      (now : datetime.t)
  | GetContact (contact_id : string)
  | CreateContact (data : json) (d : draw)
  | SimulateNewContacts (count : option Z) (draws : nat → draw).

Definition handle (r : request) (st : state) : response * state :=
  match r with
  | GetContacts limit offset since now => get_contacts limit offset since now st
  | GetContact contact_id => get_contact contact_id st
  | CreateContact data d => create_contact data d st
  | SimulateNewContacts count draws => simulate_new_contacts count draws st
  end.

(** The state after serving the requests [rs] in order. *)
Definition run (rs : list request) (st : state) : state :=
  foldl (λ st r, (handle r st).2) st rs.


(** ** Notions used in the statements *)

(** The [id] entries of the stored contacts, in insertion order. *)
Definition contact_ids (db : list contact) : list (option json) :=
  (λ c : contact, c !! "id") <$> db.

(** The [id] entries that the counter values [ns] give rise to. *)
Definition ids_of_counters (ns : list Z) : list (option json) :=
  (λ n, Some (JStr (mock_id n))) <$> ns.

(** [c[k]] read as a timestamp. *)
Definition timestamp (c : contact) (k : string) : result datetime.t :=
  v ← getitem c k; fromisoformat_value v.


(** [c] has a naive [lastModified] that is later than the naive [sd]. *)
Definition newer_than (sd : datetime.t) (c : contact) : bool :=
  match timestamp c "lastModified" with
  | inr d =>
      match datetime.fields_cmp d sd with
      | Gt => true
      | _ => false
      end
  | inl _ => false
  end.

(** The [lastModified] entry of [c] is a naive timestamp. *)
Definition naive_lastModified (c : contact) : bool :=
  match timestamp c "lastModified" with
  | inr d => datetime.naive d
  | inl _ => false
  end.

(** What [generate_mock_contact] expects of its sources: [Faker] and the
    clock return naive values, and an instant drawn up to ['now'] is not
    later than the clock reading taken after it. *)
Definition draw_ok (d : draw) : bool :=
  datetime.valid (created_at d) && datetime.naive (created_at d)
  && datetime.valid (now d) && datetime.naive (now d)
  && match datetime.fields_cmp (created_at d) (now d) with
     | Gt => false
     | _ => true
     end.

Definition has_key (k : string) (m : gmap string json) : bool :=
  match m !! k with Some _ => true | None => false end.

(** A payload that carries neither [createdAt] nor [lastModified]. *)
Definition keeps_timestamps (data : json) : bool :=
  match data with
  | JObj fields =>
      negb (has_key "createdAt" fields) && negb (has_key "lastModified" fields)
  | _ => true
  end.

(** A request whose draws are as [draw_ok] says and which does not
    overlay the two timestamps. *)
Definition plain_request (r : request) : Prop :=
  match r with
  | CreateContact data d => draw_ok d = true ∧ keeps_timestamps data = true
  | SimulateNewContacts _ draws => ∀ i, draw_ok (draws i) = true
  | _ => True
  end.

(** The contact that [generate_mock_contact] returns for draw [d] when
    the counter stands at [counter]. *)
Definition fresh_contact (d : draw) (counter : Z) : contact :=
  (generate_mock_contact d (mk_state [] counter)).1.

(** The contacts that [n] consecutive runs of the generator return,
    starting with draw [i] and the counter at [counter]. *)
Definition fresh_batch (draws : nat → draw) (i : nat) (counter : Z) (n : nat)
    : list contact :=
  (λ j, fresh_contact (draws (i + j)%nat) (counter + Z.of_nat j)) <$> seq 0 n.

(** Every stored [id] is the one the generator made from a value that the
    counter has taken since it started at 1000, and no value was used
    twice. *)
Definition ids_from_counter (st : state) : Prop :=
  1000 ≤ contact_counter st
  ∧ ∃ ns, contact_ids (contacts_db st) = ids_of_counters ns
          ∧ NoDup ns
          ∧ Forall (λ n, 1000 < n ≤ contact_counter st) ns.

(** The limit as the specification words it: the requested value, or 20,
    clamped to [0, 100]. *)
Definition clamp (lo hi x : Z) : Z := Z.max lo (Z.min x hi).

Definition specified_limit (limit : option Z) : Z :=
  clamp 0 100 (arg_or 20 limit).

(** ** Sample data *)

Definition sample_draw : draw :=
  mk_draw "Alice" "MARTIN" "alice@example.org" "+33612345678" "TechCorp"
    "UX Designer" ["lead"; "premium"]
    (datetime.make 2024 1 2 8 30 0 0 None)
    (datetime.make 2024 1 20 10 0 0 5 None)
    42 "note".

Definition sample_draws : nat → draw := λ _, sample_draw.

Definition sample_now : datetime.t := datetime.make 2024 1 21 9 0 0 0 None.

(** A store of five generated contacts, [mock_crm_1001] to
    [mock_crm_1005]. *)
Definition sample_state : state := seed_loop 5 sample_draws 0 initial_state.

(** ** What a client reads from an answer *)

Definition as_contact (v : json) : option contact :=
  match v with
  | JObj c => Some c
  | _ => None
  end.

(** The [contacts] array of an answer with status 200. *)
Definition listed (r : response) : option (list contact) :=
  match r with
  | Reply 200 (JObj body) =>
      match body !! "contacts" with
      | Some (JList l) => mapM as_contact l
      | _ => None
      end
  | _ => None
  end.

(** The entry [k] of the [pagination] object of an answer with status
    200. *)
Definition pagination (r : response) (k : string) : option json :=
  match r with
  | Reply 200 (JObj body) =>
      match body !! "pagination" with
      | Some (JObj p) => p !! k
      | _ => None
      end
  | _ => None
  end.

(** [datetime.fromisoformat(c['lastModified']) > sd] evaluates to [True]. *)
Definition later_than (sd : datetime.t) (c : contact) : bool :=
  match timestamp c "lastModified" ≫= (λ d, datetime.gt d sd) with
  | inr b => b
  | inl _ => false
  end.

(** ** More sample data *)

(** Draws whose clock readings fall on the days 10, 11, 12, ... of
    January 2024. *)
Definition dated_draws : nat → draw := λ i,
  mk_draw "Bob" "DURAND" "bob@example.org" "0612345678" "DataInc"
    "Data Scientist" ["client"]
    (datetime.make 2024 1 2 8 30 0 0 None)
    (datetime.make 2024 1 (10 + Z.of_nat i) 10 0 0 0 None)
    77 "note".

(** Five contacts, last modified on the days 10 to 14 of January 2024. *)
Definition dated_state : state := seed_loop 5 dated_draws 0 initial_state.

(** Draws taken on 25 January 2024. *)
Definition later_draws : nat → draw := λ _,
  mk_draw "Carla" "PETIT" "carla@example.org" "0712345678" "StartupLab"
    "Product Owner" ["startup"]
    (datetime.make 2024 1 22 0 0 0 0 None)
    (datetime.make 2024 1 25 9 0 0 0 None)
    55 "note".

(** * Properties *)

(** ** [isoformat] and [fromisoformat] *)

Module datetime_facts.
Import datetime.

Lemma digit_dchar d : 0 ≤ d < 10 → digit (dchar d) = Some d.
Proof.
  intros H.
  assert (d = 0 ∨ d = 1 ∨ d = 2 ∨ d = 3 ∨ d = 4 ∨ d = 5 ∨ d = 6 ∨ d = 7
          ∨ d = 8 ∨ d = 9) as Hd by lia.
  repeat destruct Hd as [-> | Hd]; try subst d; reflexivity.
Qed.

Lemma is_sign_dchar d : is_sign (dchar d) = false.
Proof. unfold dchar. repeat case_match; reflexivity. Qed.

Lemma digits_snoc k : ∀ acc s,
  digits (S k) acc s = '(a, r) ← digits k acc s; digits 1 a r.
Proof.
  induction k as [|k IH]; intros acc s.
  - reflexivity.
  - destruct s as [|c r]; [reflexivity|].
    change (digits (S (S k)) acc (String c r))
      with (d ← digit c; digits (S k) (10 * acc + d) r).
    change (digits (S k) acc (String c r))
      with (d ← digit c; digits k (10 * acc + d) r).
    destruct (digit c) as [d|]; [|reflexivity].
    cbn [mbind option_bind]. apply IH.
Qed.

Lemma digits_zfill k : ∀ n acc rest,
  0 ≤ n < 10 ^ Z.of_nat k →
  digits k acc (zfill k n rest) = Some (acc * 10 ^ Z.of_nat k + n, rest).
Proof.
  induction k as [|k IH]; intros n acc rest Hn.
  - cbn. f_equal. f_equal. change (10 ^ Z.of_nat 0) with 1 in Hn. lia.
  - rewrite digits_snoc. cbn [zfill].
    rewrite Nat2Z.inj_succ, Z.pow_succ_r in * by lia.
    rewrite IH by (split; [apply Z.div_pos; lia | apply Z.div_lt_upper_bound; lia]).
    cbn [mbind option_bind digits].
    rewrite digit_dchar by (apply Z.mod_pos_bound; lia).
    cbn. f_equal. f_equal.
    pose proof (Z.div_mod n 10). lia.
Qed.

Lemma length_zfill k : ∀ n rest,
  String.length (zfill k n rest) = (k + String.length rest)%nat.
Proof.
  induction k as [|k IH]; intros n rest; [reflexivity|].
  cbn [zfill]. rewrite IH. cbn. lia.
Qed.

Lemma split_sign_zfill k : ∀ n rest,
  split_sign (zfill k n rest)
  = (zfill k n (split_sign rest).1, (split_sign rest).2).
Proof.
  induction k as [|k IH]; intros n rest.
  - cbn. by destruct (split_sign rest).
  - cbn [zfill]. rewrite IH. cbn [split_sign].
    rewrite is_sign_dchar. by destruct (split_sign rest).
Qed.

Lemma digits_zfill_0 k n rest bound :
  bound = 10 ^ Z.of_nat k → 0 ≤ n < bound →
  digits k 0 (zfill k n rest) = Some (n, rest).
Proof. intros -> Hn. by rewrite digits_zfill. Qed.

Lemma valid_bounds d :
  valid d = true →
  1 ≤ year d ≤ 9999 ∧ 1 ≤ month d ≤ 12 ∧ 1 ≤ day d ≤ 31
  ∧ 0 ≤ hour d ≤ 23 ∧ 0 ≤ minute d ≤ 59 ∧ 0 ≤ second d ≤ 59
  ∧ 0 ≤ microsecond d ≤ 999999.
Proof.
  unfold valid, in_range. intros H.
  repeat (apply andb_prop in H as [H ?]).
  assert (days_in_month (year d) (month d) ≤ 31).
  { unfold days_in_month. repeat case_match; lia. }
  lia.
Qed.

Lemma append_empty_r s : s +:+ "" = s.
Proof.
  induction s as [|c s IH]; [reflexivity|].
  rewrite <- IH at 2. reflexivity.
Qed.

Lemma split_sign_frac us : split_sign (frac_part us) = (frac_part us, None).
Proof.
  unfold frac_part. destruct (us =? 0); [reflexivity|].
  cbn [split_sign]. change (is_sign ".") with false. cbv iota.
  by rewrite split_sign_zfill.
Qed.

Ltac parse_step :=
  repeat first
    [ progress cbn [mbind option_bind expect String.eqb fst snd]
    | progress change (Ascii.eqb ":" ":") with true
    | progress change (Ascii.eqb "-" "-") with true
    | progress change (Ascii.eqb "." ".") with true
    | progress change (is_sign ":") with false
    | progress change (is_sign ".") with false
    | progress cbv iota ].

Lemma parse_time_printed h mi s us :
  0 ≤ h ≤ 23 → 0 ≤ mi ≤ 59 → 0 ≤ s ≤ 59 → 0 ≤ us ≤ 999999 →
  parse_time (zfill 2 h (String ":" (zfill 2 mi (String ":"
    (zfill 2 s (frac_part us))))))
  = Some (h, mi, s, us, None).
Proof.
  intros Hh Hmi Hs Hus. unfold parse_time.
  rewrite split_sign_zfill. cbn [split_sign]. parse_step.
  rewrite split_sign_zfill. cbn [split_sign]. parse_step.
  rewrite split_sign_zfill, split_sign_frac. parse_step.
  unfold parse_hh_mm_ss_ff.
  rewrite (digits_zfill_0 2 h _ 100) by (done || lia). parse_step.
  rewrite (digits_zfill_0 2 mi _ 100) by (done || lia). parse_step.
  rewrite (digits_zfill_0 2 s _ 100) by (done || lia). parse_step.
  unfold frac_part. destruct (us =? 0) eqn:E.
  - parse_step. apply Z.eqb_eq in E. by subst.
  - parse_step. rewrite length_zfill. cbn [String.length Nat.add].
    rewrite (digits_zfill_0 6 us _ 1000000) by (done || lia).
    reflexivity.
Qed.

(** Parsing what [isoformat] printed gives back a naive value. *)
Lemma fromisoformat_isoformat d :
  valid d = true → naive d = true → fromisoformat (isoformat d) = Some d.
Proof.
  intros Hv Hn. pose proof (valid_bounds d Hv) as Hb.
  destruct d as [y mo dd h mi s us [off|]]; [discriminate|]. cbn in Hb.
  unfold fromisoformat, isoformat.
  cbn [year month day hour minute second microsecond tzinfo format_offset].
  rewrite append_empty_r.
  rewrite (digits_zfill_0 4 y _ 10000) by (done || lia). parse_step.
  rewrite (digits_zfill_0 2 mo _ 100) by (done || lia). parse_step.
  rewrite (digits_zfill_0 2 dd _ 100) by (done || lia). parse_step.
  rewrite parse_time_printed by lia. parse_step.
  unfold checked. by rewrite Hv.
Qed.

End datetime_facts.

(** ** The generator and the store *)

Lemma generate_counter d st :
  (generate_mock_contact d st).2
  = mk_state (contacts_db st) (contact_counter st + 1).
Proof. reflexivity. Qed.

Lemma generate_fresh d st :
  (generate_mock_contact d st).1 = fresh_contact d (contact_counter st).
Proof. reflexivity. Qed.

Lemma fresh_id d n : fresh_contact d n !! "id" = Some (JStr (mock_id (n + 1))).
Proof. reflexivity. Qed.

Lemma fresh_createdAt d n :
  fresh_contact d n !! "createdAt"
  = Some (JStr (datetime.isoformat (created_at d))).
Proof.
  unfold fresh_contact, generate_mock_contact.
  cbn [fst list_to_map foldr contact_counter]. by simplify_map_eq.
Qed.

Lemma fresh_lastModified d n :
  fresh_contact d n !! "lastModified"
  = Some (JStr (datetime.isoformat (now d))).
Proof.
  unfold fresh_contact, generate_mock_contact.
  cbn [fst list_to_map foldr contact_counter]. by simplify_map_eq.
Qed.

Lemma without_id_lookup fields k :
  without_id fields !! k = if decide (k = "id") then None else fields !! k.
Proof.
  unfold without_id. rewrite map_lookup_filter.
  destruct (fields !! k) as [v|] eqn:E; cbn; case_decide; subst; try done.
  by rewrite option_guard_True.
Qed.

Lemma update_lookup c fields k :
  update c (without_id fields) !! k
  = if decide (k = "id") then c !! "id"
    else from_option Some (c !! k) (fields !! k).
Proof.
  unfold update. rewrite lookup_union, without_id_lookup.
  case_decide; subst.
  - by destruct (c !! "id").
  - destruct (fields !! k), (c !! k); done.
Qed.

Lemma batch_length draws i counter n :
  length (fresh_batch draws i counter n) = n.
Proof. unfold fresh_batch. by rewrite length_fmap, length_seq. Qed.

Lemma batch_S draws i counter n :
  fresh_batch draws i counter (S n)
  = fresh_contact (draws i) counter
    :: fresh_batch draws (S i) (counter + 1) n.
Proof.
  unfold fresh_batch. cbn [seq fmap list_fmap]. f_equal.
  - by rewrite Nat.add_0_r, Z.add_0_r.
  - rewrite <- fmap_S_seq, <- list_fmap_compose. apply list_fmap_ext.
    intros _ j _. cbn [compose].
    replace (i + S j)%nat with (S i + j)%nat by lia.
    by replace (counter + Z.of_nat (S j)) with (counter + 1 + Z.of_nat j) by lia.
Qed.

Lemma seed_loop_spec n : ∀ draws i st,
  seed_loop n draws i st
  = mk_state (contacts_db st ++ fresh_batch draws i (contact_counter st) n)
             (contact_counter st + Z.of_nat n).
Proof.
  induction n as [|n IH]; intros draws i [db counter].
  - cbn. by rewrite app_nil_r, Z.add_0_r.
  - cbn [seed_loop]. rewrite (surjective_pairing (generate_mock_contact _ _)).
    rewrite generate_fresh, generate_counter, IH, batch_S.
    cbn [append_contact contacts_db contact_counter].
    rewrite <- app_assoc. f_equal. lia.
Qed.

Lemma simulate_loop_spec n : ∀ draws i acc st,
  simulate_loop n draws i acc st
  = (acc ++ fresh_batch draws i (contact_counter st) n,
     mk_state (contacts_db st ++ fresh_batch draws i (contact_counter st) n)
              (contact_counter st + Z.of_nat n)).
Proof.
  induction n as [|n IH]; intros draws i acc [db counter].
  - cbn. by rewrite !app_nil_r, Z.add_0_r.
  - cbn [simulate_loop]. rewrite (surjective_pairing (generate_mock_contact _ _)).
    rewrite generate_fresh, generate_counter, IH, batch_S.
    cbn [append_contact contacts_db contact_counter].
    rewrite <- !app_assoc. do 2 f_equal. lia.
Qed.

(** ** Creating contacts *)

Lemma create_contact_object fields d st :
  create_contact (JObj fields) d st
  = let merged :=
      update (fresh_contact d (contact_counter st)) (without_id fields) in
    (Reply 201 (JObj merged),
     mk_state (contacts_db st ++ [merged]) (contact_counter st + 1)).
Proof.
  unfold create_contact.
  rewrite (surjective_pairing (generate_mock_contact _ _)).
  rewrite generate_fresh, generate_counter.
  cbn [truthy]. case_bool_decide as Hsz; cbn [negb]; [|done].
  apply map_size_empty_iff in Hsz. rewrite Hsz.
  unfold without_id, update.
  by rewrite map_filter_empty, (left_id_L ∅ (∪)).
Qed.

Lemma create_contact_cases data d st :
  let fresh := fresh_contact d (contact_counter st) in
  (∃ fields, data = JObj fields)
  ∨ (create_contact data d st).2
    = mk_state (contacts_db st ++ [fresh]) (contact_counter st + 1)
  ∨ (create_contact data d st).2
    = mk_state (contacts_db st) (contact_counter st + 1).
Proof.
  intros fresh. unfold create_contact.
  rewrite (surjective_pairing (generate_mock_contact _ _)).
  rewrite generate_fresh, generate_counter. fold fresh.
  destruct data; eauto; destruct (truthy _); eauto.
Qed.

(** A payload that is true in Python's sense but is not an object has no
    [items]: the handler ends with an uncaught [AttributeError] after the
    generator has advanced the counter, and nothing is appended. *)
Lemma create_contact_non_object data d st :
  truthy data = true →
  match data with JObj _ => False | _ => True end →
  create_contact data d st
  = (Crash AttributeError,
     mk_state (contacts_db st) (contact_counter st + 1)).
Proof.
  intros Ht Hd. unfold create_contact.
  rewrite (surjective_pairing (generate_mock_contact _ _)), generate_counter.
  rewrite Ht. by destruct data.
Qed.


(** C7. [simulate_new_contacts] runs the generator [k] times, [k] being
    the requested count (5 when absent) clamped to [0, 20]; it appends
    the [k] generated records, unchanged and in generation order, so the
    store grows by exactly [k], and it answers with the count [k] in the
    message and with the same records in the same order. *)
Theorem simulate_creates_clamped_count count draws st :
  let k := Z.to_nat (clamp 0 20 (arg_or 5 count)) in
  let new := fresh_batch draws 0 (contact_counter st) k in
  simulate_new_contacts count draws st
  = (Reply 200 (simulate_body new),
     mk_state (contacts_db st ++ new) (contact_counter st + Z.of_nat k))
  ∧ length new = k
  ∧ length (contacts_db (simulate_new_contacts count draws st).2)
    = (length (contacts_db st) + k)%nat
  ∧ simulate_body new
    = JObj {[ "message" := JStr ("Created " +:+ pretty k +:+ " new contacts");
              "contacts" := JList (JObj <$> new) ]}.
Proof.
  intros k new.
  assert (range_len (Z.min (arg_or 5 count) 20) = k) as Hk.
  { unfold range_len, k, clamp. lia. }
  assert (simulate_new_contacts count draws st
          = (Reply 200 (simulate_body new),
             mk_state (contacts_db st ++ new)
                      (contact_counter st + Z.of_nat k))) as Heq.
  { unfold simulate_new_contacts. rewrite Hk, simulate_loop_spec. done. }
  split_and!; [done | apply batch_length | |].
  - rewrite Heq. cbn [snd contacts_db]. unfold new.
    by rewrite length_app, batch_length.
  - unfold simulate_body, new. by rewrite batch_length.
Qed.

Lemma startup_spec draws :
  startup draws = mk_state (fresh_batch draws 0 1000 50) 1050.
Proof. unfold startup. by rewrite seed_loop_spec. Qed.

Lemma startup_length draws : length (contacts_db (startup draws)) = 50%nat.
Proof. rewrite startup_spec. apply batch_length. Qed.

(** ** Listing contacts *)

Lemma get_contacts_ok limit offset since now st filtered :
  filtered_contacts since (contacts_db st) = ok filtered →
  get_contacts limit offset since now st
  = (Reply 200
       (listing_body
          (py_slice filtered (arg_or 0 offset)
             (arg_or 0 offset + effective_limit limit))
          (Z.of_nat (length filtered)) (effective_limit limit)
          (arg_or 0 offset) now),
     st).
Proof. intros H. unfold get_contacts. by rewrite H. Qed.

Lemma py_slice_nonneg {A} (l : list A) off lim :
  0 ≤ off → 0 ≤ lim →
  py_slice l off (off + lim) = take (Z.to_nat lim) (drop (Z.to_nat off) l).
Proof.
  intros Hoff Hlim. unfold py_slice, slice_index.
  rewrite !(proj2 (Z.ltb_ge _ _)) by lia.
  destruct (decide (off + lim ≤ Z.of_nat (length l))).
  - f_equal; [lia | f_equal; lia].
  - destruct (decide (off ≤ Z.of_nat (length l))).
    + rewrite Z.min_r, (Z.min_l off) by lia.
      rewrite !take_ge; [done | |]; rewrite length_drop; lia.
    + rewrite !Z.min_r, Z.sub_diag by lia. cbn [Z.to_nat take].
      rewrite (drop_ge l (Z.to_nat off)) by lia. by rewrite take_nil.
Qed.

(** C3, counterexample. A requested limit of -1 is used as it is: on a
    store of three contacts the page holds the first two (the slice
    [[0:-1]]) and the limit echoed is -1, where a limit clamped to
    [0, 100] would be 0 and the page empty. *)
Lemma negative_limit_not_clamped :
  let st := seed_loop 3 sample_draws 0 initial_state in
  effective_limit (Some (-1)) = -1
  ∧ specified_limit (Some (-1)) = 0
  ∧ get_contacts (Some (-1)) None None sample_now st
    = (Reply 200
         (listing_body (take 2 (contacts_db st)) 3 (-1) 0 sample_now), st).
Proof. split_and!; reflexivity. Qed.

(** C3, as amended. The effective limit is the smaller of the requested
    value and 100, with 20 for an absent parameter: a value above 100
    becomes 100, any other value, a negative one included, is used
    unchanged; this is the limit the listing slices with and echoes. *)
Theorem effective_limit_caps_at_100 limit offset now st :
  let lim := match limit with
             | None => 20
             | Some l => if 100 <? l then 100 else l
             end in
  effective_limit limit = lim
  ∧ get_contacts limit offset None now st
    = (Reply 200
         (listing_body
            (py_slice (contacts_db st) (arg_or 0 offset)
               (arg_or 0 offset + lim))
            (Z.of_nat (length (contacts_db st))) lim (arg_or 0 offset) now),
       st).
Proof.
  intros lim.
  assert (effective_limit limit = lim) as Hl.
  { unfold effective_limit, lim, arg_or. destruct limit as [l|]; cbn; [|done].
    destruct (Z.ltb_spec 100 l); lia. }
  split; [done|]. rewrite <- Hl. by apply get_contacts_ok.
Qed.

(** C4, counterexample. The empty string is not a timestamp, yet a
    request with [since] present and empty is served like one without
    [since]: status 200 and the first page of the whole store. *)
Lemma empty_since_not_rejected :
  let st := startup sample_draws in
  datetime.fromisoformat (replace_Z "") = None
  ∧ get_contacts None None (Some "") sample_now st
    = (Reply 200
         (listing_body (take 20 (contacts_db st)) 50 20 0 sample_now), st).
Proof.
  intros st. split; [reflexivity|].
  rewrite (get_contacts_ok None None (Some "") sample_now st (contacts_db st))
    by reflexivity.
  rewrite (py_slice_nonneg _ 0 20) by done. subst st.
  by rewrite startup_length.
Qed.

(** C4, as amended. A non-empty [since] that does not parse (after the
    replacement of [Z]) is answered with status 400 and an error body,
    and the state is returned as it was. *)
Theorem unparsable_since_rejected limit offset since now st :
  since ≠ "" →
  datetime.fromisoformat (replace_Z since) = None →
  get_contacts limit offset (Some since) now st
  = (Reply 400 (error_body "Invalid 'since' date format. Use ISO format."),
     st).
Proof.
  intros Hne Hparse. unfold get_contacts, filtered_contacts.
  apply String.eqb_neq in Hne. rewrite Hne.
  unfold filter_since, fromisoformat_value. by rewrite Hparse.
Qed.

Lemma unparsable_since_rejected_witness :
  "not-a-date" ≠ ""
  ∧ datetime.fromisoformat (replace_Z "not-a-date") = None
  ∧ get_contacts None None (Some "not-a-date") sample_now
      (startup sample_draws)
    = (Reply 400 (error_body "Invalid 'since' date format. Use ISO format."),
       startup sample_draws).
Proof.
  split_and!; [done | reflexivity |].
  apply (unparsable_since_rejected None None "not-a-date" sample_now
           (startup sample_draws)); [done | reflexivity].
Defined.

(** C5. With a non-negative offset and a limit in [0, 100], a listing
    whose filtering step succeeds answers 200 with the elements
    [offset, offset + limit) of the filtered list (none when
    [offset >= total]), [total] being the length of the filtered list and
    [hasMore] being [offset + limit < total]; the state is unchanged. *)
Theorem listing_page limit offset since now st filtered :
  let lim := arg_or 20 limit in
  let off := arg_or 0 offset in
  let total := Z.of_nat (length filtered) in
  let page := take (Z.to_nat lim) (drop (Z.to_nat off) filtered) in
  0 ≤ off → 0 ≤ lim ≤ 100 →
  filtered_contacts since (contacts_db st) = ok filtered →
  get_contacts limit offset since now st
  = (Reply 200
       (JObj {[
          "contacts" := JList (JObj <$> page);
          "pagination" := JObj {[
            "total" := JInt total;
            "limit" := JInt lim;
            "offset" := JInt off;
            "hasMore" := JBool (bool_decide (off + lim < total))
          ]};
          "timestamp" := JStr (datetime.isoformat now)
        ]}),
     st)
  ∧ length page = Z.to_nat (Z.min lim (Z.max 0 (total - off)))
  ∧ (if bool_decide (total ≤ off) then page = [] else page ≠ [] ∨ lim = 0).
Proof.
  intros lim off total page Hoff Hlim Hf.
  assert (effective_limit limit = lim) as Hl.
  { unfold effective_limit. fold lim. lia. }
  split_and!.
  - rewrite (get_contacts_ok _ _ _ _ _ _ Hf), Hl. fold off total.
    rewrite py_slice_nonneg by lia. fold page. unfold listing_body.
    do 6 f_equal.
    destruct (Z.ltb_spec (off + lim) total).
    + by rewrite bool_decide_eq_true_2.
    + by rewrite bool_decide_eq_false_2 by lia.
  - unfold page. rewrite length_take, length_drop. unfold total. lia.
  - case_bool_decide as Ht.
    + unfold page. rewrite drop_ge by (unfold total in Ht; lia).
      apply take_nil.
    + destruct (decide (lim = 0)) as [|Hz]; [by right | left].
      intros Hp. apply (f_equal length) in Hp. revert Hp. unfold page.
      rewrite length_take, length_drop. unfold total in Ht. cbn. lia.
Qed.

Lemma listing_page_witness :
  let db := contacts_db sample_state in
  0 ≤ 1
  ∧ 0 ≤ 2 ≤ 100
  ∧ filtered_contacts None db = ok db
  ∧ get_contacts (Some 2) (Some 1) None sample_now sample_state
    = (Reply 200
         (JObj {[
            "contacts" := JList [JObj (fresh_contact sample_draw 1001);
                                 JObj (fresh_contact sample_draw 1002)];
            "pagination" := JObj {[
              "total" := JInt 5;
              "limit" := JInt 2;
              "offset" := JInt 1;
              "hasMore" := JBool true
            ]};
            "timestamp" := JStr "2024-01-21T09:00:00"
          ]}),
       sample_state).
Proof.
  intros db.
  assert (0 ≤ 1) as H1 by done.
  assert (0 ≤ 2 ≤ 100) as H2 by done.
  assert (filtered_contacts None db = ok db) as H3 by reflexivity.
  refine (conj H1 (conj H2 (conj H3 _))).
  exact (proj1 (listing_page (Some 2) (Some 1) None sample_now sample_state
                  db H1 H2 H3)).
Defined.




(** ** Identifiers *)

Lemma mock_id_inj a b : mock_id a = mock_id b → a = b.
Proof.
  intros H. unfold mock_id in H.
  apply (inj (String.append _)) in H. exact (pretty_Z_inj _ _ H).
Qed.

Lemma ids_of_counters_NoDup ns : NoDup ns → NoDup (ids_of_counters ns).
Proof.
  unfold ids_of_counters. apply NoDup_fmap_2.
  intros a b H. apply (mock_id_inj a b). congruence.
Qed.

Lemma ids_from_counter_NoDup st :
  ids_from_counter st → NoDup (contact_ids (contacts_db st)).
Proof. intros (_ & ns & -> & Hnd & _). by apply ids_of_counters_NoDup. Qed.

Lemma ids_from_counter_keys st :
  ids_from_counter st → Forall (λ c : contact, is_Some (c !! "id")) (contacts_db st).
Proof.
  intros (_ & ns & Hids & _). apply Forall_forall. intros c Hc.
  assert (c !! "id" ∈ contact_ids (contacts_db st)) as Hin.
  { unfold contact_ids. apply list_elem_of_fmap. eauto. }
  rewrite Hids in Hin. unfold ids_of_counters in Hin.
  apply list_elem_of_fmap in Hin as (n & -> & _). eauto.
Qed.

Lemma ids_append st c :
  ids_from_counter st →
  c !! "id" = Some (JStr (mock_id (contact_counter st + 1))) →
  ids_from_counter
    (mk_state (contacts_db st ++ [c]) (contact_counter st + 1)).
Proof.
  intros (H0 & ns & Hids & Hnd & Hb) Hc.
  split; [cbn; lia|].
  exists (ns ++ [contact_counter st + 1]). cbn [contacts_db contact_counter].
  split_and!.
  - unfold contact_ids, ids_of_counters in *.
    rewrite !fmap_app, Hids. cbn. by rewrite Hc.
  - apply NoDup_app. split_and!; [done | | apply NoDup_singleton].
    intros n Hn Hn'. apply list_elem_of_singleton in Hn'. subst n.
    rewrite Forall_forall in Hb. apply Hb in Hn. lia.
  - apply Forall_app. split.
    + eapply Forall_impl; [exact Hb|]. cbn. lia.
    + apply Forall_singleton. lia.
Qed.

Lemma ids_skip st :
  ids_from_counter st →
  ids_from_counter (mk_state (contacts_db st) (contact_counter st + 1)).
Proof.
  intros (H0 & ns & Hids & Hnd & Hb). split; [cbn; lia|].
  exists ns. split_and!; [done..|].
  eapply Forall_impl; [exact Hb|]. cbn. lia.
Qed.

Lemma ids_batch n : ∀ draws i st,
  ids_from_counter st →
  ids_from_counter
    (mk_state (contacts_db st ++ fresh_batch draws i (contact_counter st) n)
              (contact_counter st + Z.of_nat n)).
Proof.
  induction n as [|n IH]; intros draws i [db counter] Hst.
  - cbn. by rewrite app_nil_r, Z.add_0_r.
  - rewrite batch_S. cbn [contacts_db contact_counter].
    pose proof (ids_append _ (fresh_contact (draws i) counter) Hst
                  (fresh_id _ _)) as Hst'.
    specialize (IH draws (S i) _ Hst'). cbn [contacts_db contact_counter] in IH.
    rewrite <- app_assoc in IH. cbn [app] in IH.
    by replace (counter + Z.of_nat (S n)) with (counter + 1 + Z.of_nat n) by lia.
Qed.

Lemma ids_initial : ids_from_counter initial_state.
Proof.
  split; [done|]. exists []. split_and!; [done | constructor | constructor].
Qed.

Lemma ids_startup draws : ids_from_counter (startup draws).
Proof. rewrite startup_spec. apply (ids_batch 50 draws 0 _ ids_initial). Qed.

Lemma get_contacts_state limit offset since now st :
  (get_contacts limit offset since now st).2 = st.
Proof.
  unfold get_contacts.
  destruct (filtered_contacts since (contacts_db st)) as [[]|]; reflexivity.
Qed.

Lemma get_contact_state contact_id st : (get_contact contact_id st).2 = st.
Proof.
  unfold get_contact.
  destruct (find_contact contact_id (contacts_db st)) as [|o]; [done|].
  by destruct (falsy_contact o).
Qed.

Lemma ids_handle r st : ids_from_counter st → ids_from_counter (handle r st).2.
Proof.
  intros Hst. destruct r as [limit offset since now|cid|data d|count draws];
    cbn [handle].
  - by rewrite get_contacts_state.
  - by rewrite get_contact_state.
  - destruct (create_contact_cases data d st) as [[fields ->]|[->| ->]].
    + rewrite create_contact_object. cbn [snd].
      apply ids_append; [done|]. rewrite update_lookup.
      rewrite decide_True by done. apply fresh_id.
    + apply ids_append; [done | apply fresh_id].
    + by apply ids_skip.
  - unfold simulate_new_contacts. rewrite simulate_loop_spec. cbn [snd].
    by apply ids_batch.
Qed.

Lemma ids_run rs : ∀ st, ids_from_counter st → ids_from_counter (run rs st).
Proof.
  induction rs as [|r rs IH]; intros st Hst; [done|].
  apply IH. by apply ids_handle.
Qed.

Lemma counter_handle r st :
  contact_counter st ≤ contact_counter (handle r st).2.
Proof.
  destruct r as [limit offset since now|cid|data d|count draws]; cbn [handle].
  - by rewrite get_contacts_state.
  - by rewrite get_contact_state.
  - destruct (create_contact_cases data d st) as [[fields ->]|[->| ->]];
      rewrite ?create_contact_object; cbn; lia.
  - unfold simulate_new_contacts. rewrite simulate_loop_spec. cbn. lia.
Qed.

Lemma counter_run rs : ∀ st, contact_counter st ≤ contact_counter (run rs st).
Proof.
  induction rs as [|r rs IH]; intros st; [done|].
  etrans; [apply (counter_handle r)|]. apply IH.
Qed.

Lemma batch_ids draws i counter n :
  contact_ids (fresh_batch draws i counter n)
  = ids_of_counters (seqZ (counter + 1) (Z.of_nat n)).
Proof.
  unfold contact_ids, ids_of_counters, fresh_batch, seqZ.
  rewrite Nat2Z.id, <- !list_fmap_compose. apply list_fmap_ext.
  intros _ j _. cbn [compose]. rewrite fresh_id. do 3 f_equal. lia.
Qed.

(** C8. After start-up the store holds exactly 50 contacts, whose ids are
    [mock_crm_1001] to [mock_crm_1050], pairwise distinct; after any
    further sequence of requests the ids in the store are still pairwise
    distinct, each of them the id made from a value that the shared
    counter has taken, and the counter never decreases. *)
Theorem ids_pairwise_distinct draws rs :
  let st0 := startup draws in
  let st := run rs st0 in
  length (contacts_db st0) = 50%nat
  ∧ contact_ids (contacts_db st0) = ids_of_counters (seqZ 1001 50)
  ∧ NoDup (contact_ids (contacts_db st0))
  ∧ NoDup (contact_ids (contacts_db st))
  ∧ ids_from_counter st
  ∧ contact_counter st0 = 1050
  ∧ contact_counter st0 ≤ contact_counter st.
Proof.
  intros st0 st.
  assert (ids_from_counter st) as Hst by apply ids_run, ids_startup.
  split_and!.
  - apply startup_length.
  - unfold st0. rewrite startup_spec. apply (batch_ids draws 0 1000 50).
  - apply ids_from_counter_NoDup, ids_startup.
  - by apply ids_from_counter_NoDup.
  - done.
  - unfold st0. by rewrite startup_spec.
  - apply counter_run.
Qed.


(** ** Fetching one contact *)

Lemma eq_str_true v s : eq_str v s = true ↔ v = JStr s.
Proof.
  destruct v; cbn; try (split; [discriminate | congruence]).
  rewrite String.eqb_eq. split; congruence.
Qed.

Lemma find_contact_spec cid db :
  Forall (λ c : contact, is_Some (c !! "id")) db →
  (∃ c, find_contact cid db = ok (Some c)
        ∧ c ∈ db ∧ c !! "id" = Some (JStr cid))
  ∨ (find_contact cid db = ok None
     ∧ Forall (λ c : contact, c !! "id" ≠ Some (JStr cid)) db).
Proof.
  induction 1 as [|c db [v Hv] _ IH]; [right; by split|].
  cbn [find_contact]. unfold getitem. rewrite Hv. cbn.
  destruct (eq_str v cid) eqn:E.
  - left. exists c. apply eq_str_true in E. subst v.
    split_and!; [done | apply list_elem_of_here | done].
  - destruct IH as [(c' & Hf & Hin & Hid)|[Hf Hall]].
    + left. exists c'. split_and!; [done | by apply list_elem_of_further | done].
    + right. split; [done|]. constructor; [|done].
      intros Heq. rewrite Heq in Hv. injection Hv as <-.
      assert (eq_str (JStr cid) cid = true) by by apply eq_str_true.
      congruence.
Qed.

Lemma ids_unique_contact (db : list contact) (c c' : contact) :
  NoDup (contact_ids db) → c ∈ db → c' ∈ db →
  c !! "id" = c' !! "id" → c = c'.
Proof.
  intros Hnd Hc Hc' Hid.
  apply list_elem_of_lookup in Hc as [i Hi].
  apply list_elem_of_lookup in Hc' as [j Hj].
  assert (contact_ids db !! i = Some (c !! "id")) as Hi'.
  { unfold contact_ids. by rewrite list_lookup_fmap, Hi. }
  assert (contact_ids db !! j = Some (c !! "id")) as Hj'.
  { unfold contact_ids. by rewrite list_lookup_fmap, Hj, Hid. }
  assert (i = j) by by eapply NoDup_lookup. subst j. congruence.
Qed.

(** C9. In every state reached from start-up, [get_contact] leaves the
    state as it is, and either some stored contact has the requested id,
    it is the only one, and the answer is that contact with status 200,
    or no stored contact has the id and the answer is status 404 with the
    body [{"error": "Contact not found"}]. *)
Theorem get_contact_found_or_404 draws rs cid :
  let st := run rs (startup draws) in
  (get_contact cid st).2 = st
  ∧ ((∃ c, c ∈ contacts_db st
           ∧ c !! "id" = Some (JStr cid)
           ∧ Forall (λ c' : contact, c' !! "id" = Some (JStr cid) → c' = c)
               (contacts_db st)
           ∧ (get_contact cid st).1 = Reply 200 (JObj c))
     ∨ (Forall (λ c : contact, c !! "id" ≠ Some (JStr cid)) (contacts_db st)
        ∧ (get_contact cid st).1 = Reply 404 (error_body "Contact not found"))).
Proof.
  intros st. split; [apply get_contact_state|].
  assert (ids_from_counter st) as Hst by apply ids_run, ids_startup.
  destruct (find_contact_spec cid (contacts_db st)
              (ids_from_counter_keys _ Hst))
    as [(c & Hf & Hin & Hid)|[Hf Hall]].
  - left. exists c. split_and!; [done..| |].
    + apply Forall_forall. intros c' Hin' Hid'. symmetry.
      eapply ids_unique_contact; [by apply ids_from_counter_NoDup|done..|].
      congruence.
    + unfold get_contact, falsy_contact. rewrite Hf. unfold ok. cbv iota beta.
      rewrite bool_decide_eq_false_2; [done|].
      intros Hsz. apply map_size_empty_iff in Hsz. by rewrite Hsz in Hid.
  - right. split; [done|]. unfold get_contact. by rewrite Hf.
Qed.

(** ** Timestamps *)



Lemma timestamp_fresh_createdAt d n :
  datetime.valid (created_at d) = true → datetime.naive (created_at d) = true →
  timestamp (fresh_contact d n) "createdAt" = ok (created_at d).
Proof.
  intros Hv Hn. unfold timestamp, getitem. rewrite fresh_createdAt.
  unfold ok, mbind, result_bind, fromisoformat_value. cbv beta iota.
  by rewrite datetime_facts.fromisoformat_isoformat.
Qed.

Lemma timestamp_fresh_lastModified d n :
  datetime.valid (now d) = true → datetime.naive (now d) = true →
  timestamp (fresh_contact d n) "lastModified" = ok (now d).
Proof.
  intros Hv Hn. unfold timestamp, getitem. rewrite fresh_lastModified.
  unfold ok, mbind, result_bind, fromisoformat_value. cbv beta iota.
  by rewrite datetime_facts.fromisoformat_isoformat.
Qed.

Lemma draw_ok_inv d :
  draw_ok d = true →
  datetime.valid (created_at d) = true ∧ datetime.naive (created_at d) = true
  ∧ datetime.valid (now d) = true ∧ datetime.naive (now d) = true
  ∧ datetime.fields_cmp (created_at d) (now d) ≠ Gt.
Proof.
  unfold draw_ok.
  intros [[[[H1 H2]%andb_prop H3]%andb_prop H4]%andb_prop H5]%andb_prop.
  split_and!; [done..|]. intros Heq. by rewrite Heq in H5.
Qed.



Lemma has_key_false k (m : gmap string json) :
  negb (has_key k m) = true → m !! k = None.
Proof. unfold has_key. by destruct (m !! k). Qed.







(** ** Incremental listing *)

Lemma naive_tzinfo d : datetime.naive d = true → datetime.tzinfo d = None.
Proof. unfold datetime.naive. by destruct (datetime.tzinfo d). Qed.

Lemma aware_tzinfo d :
  datetime.naive d = false → ∃ off, datetime.tzinfo d = Some off.
Proof. unfold datetime.naive. destruct (datetime.tzinfo d); eauto. done. Qed.

(** A naive [since] against naive stored timestamps: the filter keeps
    exactly the contacts modified later, in order. *)
Lemma modified_after_naive sd db :
  datetime.naive sd = true →
  Forall (λ c, naive_lastModified c = true) db →
  modified_after sd db = ok (List.filter (newer_than sd) db).
Proof.
  intros Hsd. induction 1 as [|c db Hc _ IH]; [reflexivity|].
  cbn [modified_after List.filter]. rewrite IH.
  unfold naive_lastModified, newer_than, timestamp in *.
  destruct (getitem c "lastModified") as [e|v]; [done|].
  cbn [mbind result_bind] in *.
  destruct (fromisoformat_value v) as [e|d]; [done|].
  cbn [mbind result_bind] in *. unfold datetime.gt, datetime.cmp.
  rewrite (naive_tzinfo _ Hc), (naive_tzinfo _ Hsd). cbn.
  by destruct (datetime.fields_cmp d sd).
Qed.

(** An aware [since] against a store whose first contact has a naive
    [lastModified]: the comparison raises [TypeError], which the handler
    does not catch. *)
Lemma aware_since_crashes limit offset since now st c rest sd :
  contacts_db st = c :: rest →
  naive_lastModified c = true →
  since ≠ "" →
  datetime.fromisoformat (replace_Z since) = Some sd →
  datetime.naive sd = false →
  get_contacts limit offset (Some since) now st = (Crash TypeError, st).
Proof.
  intros Hdb Hc Hne Hparse Hsd. unfold get_contacts, filtered_contacts.
  apply String.eqb_neq in Hne. rewrite Hne.
  unfold filter_since, fromisoformat_value at 1. rewrite Hparse, Hdb.
  cbn [mbind result_bind ok modified_after].
  unfold naive_lastModified, timestamp in Hc.
  destruct (getitem c "lastModified") as [e|v]; [done|].
  cbn [mbind result_bind] in *.
  destruct (fromisoformat_value v) as [e|d]; [done|].
  cbn [mbind result_bind] in *. unfold datetime.gt, datetime.cmp.
  destruct (aware_tzinfo _ Hsd) as [off Hoff].
  by rewrite (naive_tzinfo _ Hc), Hoff.
Qed.

Lemma fresh_naive_lastModified d n :
  draw_ok d = true → naive_lastModified (fresh_contact d n) = true.
Proof.
  intros (_ & _ & Hvn & Hnn & _)%draw_ok_inv. unfold naive_lastModified.
  by rewrite timestamp_fresh_lastModified.
Qed.

(** C2, at the failing input. On the store that start-up seeding leaves,
    a [since] with a trailing [Z] parses, after the replacement of [Z],
    to an aware timestamp, and the listing ends with an uncaught
    [TypeError] instead of a page. *)
Theorem since_with_Z_crashes :
  let st := startup sample_draws in
  let since := "2024-01-01T00:00:00Z" in
  datetime.fromisoformat (replace_Z since)
  = Some (datetime.make 2024 1 1 0 0 0 0 (Some 0))
  ∧ get_contacts None None (Some since) sample_now st = (Crash TypeError, st).
Proof.
  intros st since. split; [reflexivity|].
  eapply (aware_since_crashes None None since sample_now st
            (fresh_contact sample_draw 1000)
            (fresh_batch sample_draws 1 1001 49)).
  - unfold st. rewrite startup_spec. cbn [contacts_db].
    by rewrite (batch_S sample_draws 0 1000 49).
  - by apply fresh_naive_lastModified.
  - done.
  - reflexivity.
  - reflexivity.
Qed.

(** * Further properties of the handlers *)

(** ** Reading an answer *)

Lemma mapM_as_contact cs : mapM as_contact (JObj <$> cs) = Some cs.
Proof. by apply mapM_fmap_Some. Qed.

Lemma listed_listing_body cs total limit offset now :
  listed (Reply 200 (listing_body cs total limit offset now)) = Some cs.
Proof.
  unfold listed, listing_body.
  rewrite lookup_insert_eq. apply mapM_as_contact.
Qed.

Lemma pagination_listing_body cs total limit offset now :
  pagination (Reply 200 (listing_body cs total limit offset now)) "hasMore"
  = Some (JBool (offset + limit <? total))
  ∧ pagination (Reply 200 (listing_body cs total limit offset now)) "total"
    = Some (JInt total).
Proof.
  unfold pagination, listing_body.
  rewrite lookup_insert_ne, lookup_insert_eq by done.
  split; by simplify_map_eq.
Qed.

(** ** Pages *)

Lemma py_slice_sublist {A} (l : list A) a b : py_slice l a b `sublist_of` l.
Proof.
  unfold py_slice. etrans; [apply sublist_take | apply sublist_drop].
Qed.

Lemma py_slice_length {A} (l : list A) off lim :
  0 ≤ lim → Z.of_nat (length (py_slice l off (off + lim))) ≤ lim.
Proof.
  intros Hlim. unfold py_slice, slice_index.
  rewrite length_take, length_drop.
  destruct (Z.ltb_spec off 0), (Z.ltb_spec (off + lim) 0); lia.
Qed.

Lemma listed_get_contacts limit offset since now st f :
  filtered_contacts since (contacts_db st) = ok f →
  listed (get_contacts limit offset since now st).1
  = Some (py_slice f (arg_or 0 offset)
            (arg_or 0 offset + effective_limit limit)).
Proof.
  intros Hf. rewrite (get_contacts_ok _ _ _ _ _ _ Hf). cbn [fst].
  apply listed_listing_body.
Qed.

(** X1. Whatever the offset, a listing that asks for a limit that is not
    negative returns a page that is a sub-sequence of the filtered list,
    in its order, and holds at most [min(limit, 100)] contacts. *)
Theorem page_is_bounded_sublist limit offset since now st f :
  filtered_contacts since (contacts_db st) = ok f →
  0 ≤ arg_or 20 limit →
  ∃ page,
    listed (get_contacts limit offset since now st).1 = Some page
    ∧ page `sublist_of` f
    ∧ Z.of_nat (length page) ≤ Z.min (arg_or 20 limit) 100.
Proof.
  intros Hf Hlim. eexists. split; [by apply listed_get_contacts|].
  split; [apply py_slice_sublist|].
  apply py_slice_length. unfold effective_limit. lia.
Qed.

Lemma page_is_bounded_sublist_witness :
  filtered_contacts None (contacts_db sample_state)
  = ok (contacts_db sample_state)
  ∧ 0 ≤ arg_or 20 (Some 3)
  ∧ ∃ page,
      listed (get_contacts (Some 3) (Some (-4)) None sample_now
                sample_state).1 = Some page
      ∧ page `sublist_of` contacts_db sample_state
      ∧ Z.of_nat (length page) ≤ Z.min (arg_or 20 (Some 3)) 100.
Proof.
  assert (filtered_contacts None (contacts_db sample_state)
          = ok (contacts_db sample_state)) as H1 by reflexivity.
  assert (0 ≤ arg_or 20 (Some 3)) as H2 by done.
  refine (conj H1 (conj H2 _)).
  exact (page_is_bounded_sublist (Some 3) (Some (-4)) None sample_now
           sample_state _ H1 H2).
Defined.

(** X2. With an offset and a limit that are not negative, the page
    followed by the contacts after it is the filtered list from the
    offset on, and [hasMore] is true exactly when contacts remain after
    the page. *)
Theorem has_more_iff_contacts_remain limit offset since now st f :
  let off := arg_or 0 offset in
  let lim := effective_limit limit in
  let rest := drop (Z.to_nat (off + lim)) f in
  let r := (get_contacts limit offset since now st).1 in
  filtered_contacts since (contacts_db st) = ok f →
  0 ≤ off → 0 ≤ lim →
  ∃ page,
    listed r = Some page
    ∧ page ++ rest = drop (Z.to_nat off) f
    ∧ pagination r "hasMore"
      = Some (JBool (match rest with [] => false | _ => true end)).
Proof.
  intros off lim rest r Hf Hoff Hlim.
  exists (take (Z.to_nat lim) (drop (Z.to_nat off) f)). split_and!.
  - unfold r. rewrite (listed_get_contacts _ _ _ _ _ _ Hf).
    fold off lim. by rewrite py_slice_nonneg.
  - unfold rest. rewrite Z2Nat.inj_add, <- drop_drop by lia.
    apply take_drop.
  - unfold r. rewrite (get_contacts_ok _ _ _ _ _ _ Hf). cbn [fst].
    rewrite (proj1 (pagination_listing_body _ _ _ _ _)). fold off lim.
    do 2 f_equal.
    assert (length rest = (length f - Z.to_nat (off + lim))%nat) as Hlen.
    { unfold rest. apply length_drop. }
    destruct (Z.ltb_spec (off + lim) (Z.of_nat (length f))), rest; cbn in Hlen;
      (done || lia).
Qed.

Lemma has_more_iff_contacts_remain_witness :
  let r := (get_contacts (Some 2) (Some 1) None sample_now sample_state).1 in
  let f := contacts_db sample_state in
  let rest := drop (Z.to_nat (arg_or 0 (Some 1) + effective_limit (Some 2))) f in
  filtered_contacts None (contacts_db sample_state) = ok f
  ∧ 0 ≤ arg_or 0 (Some 1)
  ∧ 0 ≤ effective_limit (Some 2)
  ∧ ∃ page,
      listed r = Some page
      ∧ page ++ rest = drop (Z.to_nat (arg_or 0 (Some 1))) f
      ∧ pagination r "hasMore"
        = Some (JBool (match rest with [] => false | _ => true end)).
Proof.
  intros r f rest.
  assert (filtered_contacts None (contacts_db sample_state) = ok f) as H1
    by reflexivity.
  assert (0 ≤ arg_or 0 (Some 1)) as H2 by done.
  assert (0 ≤ effective_limit (Some 2)) as H3 by done.
  refine (conj H1 (conj H2 (conj H3 _))).
  exact (has_more_iff_contacts_remain (Some 2) (Some 1) None sample_now
           sample_state f H1 H2 H3).
Defined.

Lemma concat_pages {A} (f : list A) m k :
  concat ((λ i, take m (drop (i * m) f)) <$> seq 0 k) = take (k * m) f.
Proof.
  induction k as [|k IH]; [by rewrite take_0|].
  rewrite seq_S, fmap_app, concat_app, IH. cbn [fmap list_fmap concat].
  rewrite app_nil_r, take_take_drop. f_equal. lia.
Qed.

(** X3. Walking the listing with a fixed limit between 1 and 100, from
    offset 0 in steps of the limit, enumerates the filtered list: the [k]
    pages, in order, concatenate to the whole filtered list as soon as
    [k * limit] reaches its length; no contact is skipped or repeated. *)
Theorem fixed_limit_pages_enumerate lim k since now st f :
  filtered_contacts since (contacts_db st) = ok f →
  0 < lim ≤ 100 →
  (length f ≤ k * Z.to_nat lim)%nat →
  ∃ pages,
    mapM (λ i, listed (get_contacts (Some lim) (Some (Z.of_nat i * lim))
                         since now st).1) (seq 0 k) = Some pages
    ∧ concat pages = f.
Proof.
  intros Hf Hlim Hk.
  exists ((λ i, take (Z.to_nat lim) (drop (i * Z.to_nat lim) f)) <$> seq 0 k).
  split.
  - apply mapM_Some_2, Forall2_fmap_r, Forall_Forall2_diag, Forall_forall.
    intros i _. rewrite (listed_get_contacts _ _ _ _ _ _ Hf).
    change (effective_limit (Some lim)) with (Z.min lim 100).
    change (arg_or 0 (Some (Z.of_nat i * lim))) with (Z.of_nat i * lim).
    rewrite Z.min_l by lia. rewrite py_slice_nonneg by nia.
    by rewrite Z2Nat.inj_mul, Nat2Z.id by lia.
  - rewrite concat_pages. by apply take_ge.
Qed.

Lemma fixed_limit_pages_enumerate_witness :
  let f := contacts_db sample_state in
  filtered_contacts None (contacts_db sample_state) = ok f
  ∧ 0 < 2 ≤ 100
  ∧ (length f ≤ 3 * Z.to_nat 2)%nat
  ∧ ∃ pages,
      mapM (λ i, listed (get_contacts (Some 2) (Some (Z.of_nat i * 2))
                           None sample_now sample_state).1) (seq 0 3)
      = Some pages
      ∧ concat pages = f.
Proof.
  intros f.
  assert (filtered_contacts None (contacts_db sample_state) = ok f) as H1
    by reflexivity.
  assert (0 < 2 ≤ 100) as H2 by done.
  assert (length f ≤ 3 * Z.to_nat 2)%nat as H3 by (vm_compute; lia).
  refine (conj H1 (conj H2 (conj H3 _))).
  exact (fixed_limit_pages_enumerate 2 3 None sample_now sample_state f
           H1 H2 H3).
Defined.

(** X4. A negative limit lifts the cap of 100: with the offset absent,
    the page is the filtered list without its last [|limit|] contacts,
    however long that is. *)
Theorem negative_limit_drops_tail limit since now st f :
  filtered_contacts since (contacts_db st) = ok f →
  limit < 0 →
  listed (get_contacts (Some limit) None since now st).1
  = Some (take (length f - Z.to_nat (- limit)) f).
Proof.
  intros Hf Hlim. rewrite (listed_get_contacts _ _ _ _ _ _ Hf).
  change (effective_limit (Some limit)) with (Z.min limit 100).
  change (arg_or 0 None) with 0.
  rewrite Z.min_l by lia. unfold py_slice, slice_index.
  rewrite (proj2 (Z.ltb_lt (0 + limit) 0)) by lia.
  rewrite (proj2 (Z.ltb_ge 0 0)) by lia.
  rewrite Z.min_l by lia. cbn [Z.to_nat drop]. do 2 f_equal. lia.
Qed.

Lemma negative_limit_drops_tail_witness :
  let f := contacts_db sample_state in
  filtered_contacts None (contacts_db sample_state) = ok f
  ∧ -2 < 0
  ∧ listed (get_contacts (Some (-2)) None None sample_now sample_state).1
    = Some (take (length f - Z.to_nat (- -2)) f).
Proof.
  intros f.
  assert (filtered_contacts None (contacts_db sample_state) = ok f) as H1
    by reflexivity.
  assert (-2 < 0) as H2 by done.
  refine (conj H1 (conj H2 _)).
  exact (negative_limit_drops_tail (-2) None sample_now sample_state f H1 H2).
Defined.

(** ** The store over time *)

Lemma handle_prefix r st :
  contacts_db st `prefix_of` contacts_db (handle r st).2.
Proof.
  destruct r as [limit offset since now|cid|data d|count draws]; cbn [handle].
  - by rewrite get_contacts_state.
  - by rewrite get_contact_state.
  - destruct (create_contact_cases data d st) as [[fields ->]|[->| ->]];
      rewrite ?create_contact_object; cbn [snd contacts_db];
      (done || by apply prefix_app_r).
  - unfold simulate_new_contacts. rewrite simulate_loop_spec.
    cbn [snd contacts_db]. by apply prefix_app_r.
Qed.

Lemma run_prefix rs : ∀ st,
  contacts_db st `prefix_of` contacts_db (run rs st).
Proof.
  induction rs as [|r rs IH]; intros st; [done|].
  etrans; [apply (handle_prefix r)|]. apply IH.
Qed.

(** X5. The store is append-only: whatever requests are served, the
    contacts stored before are still there afterwards, unchanged and in
    the same positions, at the front of the store; in particular the 50
    seeded contacts stay its first 50 entries. *)
Theorem store_is_append_only draws rs st :
  contacts_db st `prefix_of` contacts_db (run rs st)
  ∧ take 50 (contacts_db (run rs (startup draws)))
    = contacts_db (startup draws).
Proof.
  split; [apply run_prefix|].
  destruct (run_prefix rs (startup draws)) as [k ->].
  apply take_app_length'. symmetry. apply startup_length.
Qed.

(** ** Fetching what was stored *)

Lemma get_contact_stored st c cid :
  ids_from_counter st →
  c ∈ contacts_db st → c !! "id" = Some (JStr cid) →
  get_contact cid st = (Reply 200 (JObj c), st).
Proof.
  intros Hst Hin Hid.
  destruct (find_contact_spec cid (contacts_db st)
              (ids_from_counter_keys _ Hst))
    as [(c' & Hf & Hin' & Hid')|[_ Hall]].
  - assert (c = c') as <-.
    { eapply ids_unique_contact; [by apply ids_from_counter_NoDup|done..|].
      congruence. }
    unfold get_contact, falsy_contact. rewrite Hf. unfold ok. cbv iota beta.
    rewrite bool_decide_eq_false_2; [done|].
    intros Hsz. apply map_size_empty_iff in Hsz. by rewrite Hsz in Hid.
  - rewrite Forall_forall in Hall. by destruct (Hall c Hin).
Qed.

Lemma stored_id_is_string st c :
  ids_from_counter st → c ∈ contacts_db st →
  ∃ n, 1000 < n ≤ contact_counter st ∧ c !! "id" = Some (JStr (mock_id n)).
Proof.
  intros (_ & ns & Hids & _ & Hb) Hin.
  assert (c !! "id" ∈ contact_ids (contacts_db st)) as Hc.
  { unfold contact_ids. apply list_elem_of_fmap. eauto. }
  rewrite Hids in Hc. unfold ids_of_counters in Hc.
  apply list_elem_of_fmap in Hc as (n & -> & Hn).
  rewrite Forall_forall in Hb. eauto.
Qed.

(** X6. In every state reached from start-up, every stored contact can
    be fetched: its [id] entry is a string, and [get_contact] with that
    string answers 200 with exactly that contact. *)
Theorem every_stored_contact_is_fetchable draws rs :
  let st := run rs (startup draws) in
  Forall (λ c : contact,
            ∃ cid, c !! "id" = Some (JStr cid)
                   ∧ get_contact cid st = (Reply 200 (JObj c), st))
         (contacts_db st).
Proof.
  intros st.
  assert (ids_from_counter st) as Hst by apply ids_run, ids_startup.
  apply Forall_forall. intros c Hin.
  destruct (stored_id_is_string st c Hst Hin) as (n & _ & Hid).
  exists (mock_id n). split; [done|]. by apply get_contact_stored.
Qed.

(** X7. Create, then fetch: in every state reached from start-up, the
    record that [create_contact] returns for an object payload is the
    answer of [get_contact] for the record's id in the state that the
    creation leaves. *)
Theorem created_contact_is_fetchable draws rs fields d :
  let st := run rs (startup draws) in
  let created := create_contact (JObj fields) d st in
  let cid := mock_id (contact_counter st + 1) in
  ∃ c, created.1 = Reply 201 (JObj c)
       ∧ c !! "id" = Some (JStr cid)
       ∧ get_contact cid created.2 = (Reply 200 (JObj c), created.2).
Proof.
  intros st created cid.
  assert (ids_from_counter created.2) as Hst.
  { apply (ids_handle (CreateContact (JObj fields) d)), ids_run, ids_startup. }
  unfold created in *. rewrite create_contact_object in *. cbn [fst snd] in *.
  eexists. split; [done|].
  assert (update (fresh_contact d (contact_counter st)) (without_id fields)
          !! "id" = Some (JStr cid)) as Hid.
  { rewrite update_lookup, decide_True by done. apply fresh_id. }
  split; [done|]. apply get_contact_stored; [done| |done].
  cbn [contacts_db]. apply elem_of_app. right. apply list_elem_of_here.
Qed.

(** X8. In every state reached from start-up, an id that the generator
    has not issued (it is not [mock_crm_n] for a counter value [n] taken
    so far) is answered 404, and the state stays as it is. *)
Theorem unissued_id_is_not_found draws rs cid :
  let st := run rs (startup draws) in
  (∀ n, 1000 < n ≤ contact_counter st → cid ≠ mock_id n) →
  get_contact cid st = (Reply 404 (error_body "Contact not found"), st).
Proof.
  intros st Hcid.
  assert (ids_from_counter st) as Hst by apply ids_run, ids_startup.
  destruct (find_contact_spec cid (contacts_db st)
              (ids_from_counter_keys _ Hst))
    as [(c & _ & Hin & Hid)|[Hf _]].
  - destruct (stored_id_is_string st c Hst Hin) as (n & Hn & Hid').
    destruct (Hcid n Hn). congruence.
  - unfold get_contact. by rewrite Hf.
Qed.

Lemma unissued_id_is_not_found_witness :
  let st := run [] (startup sample_draws) in
  (∀ n, 1000 < n ≤ contact_counter st → "nonexistent-id" ≠ mock_id n)
  ∧ get_contact "nonexistent-id" st
    = (Reply 404 (error_body "Contact not found"), st).
Proof.
  intros st.
  assert (∀ n, 1000 < n ≤ contact_counter st → "nonexistent-id" ≠ mock_id n)
    as H1.
  { intros n _ H. unfold mock_id in H. discriminate H. }
  refine (conj H1 _).
  exact (unissued_id_is_not_found sample_draws [] "nonexistent-id" H1).
Defined.

Lemma batch_lookup draws i0 counter n i :
  (i < n)%nat →
  fresh_batch draws i0 counter n !! i
  = Some (fresh_contact (draws (i0 + i)%nat) (counter + Z.of_nat i)).
Proof.
  intros Hi. unfold fresh_batch. rewrite list_lookup_fmap, lookup_seq_lt by done.
  reflexivity.
Qed.

(** X9. After start-up the ids [mock_crm_1001] to [mock_crm_1050] are
    those of the seeded contacts in seeding order: fetching
    [mock_crm_(1001 + i)] for [i < 50] answers 200 with the contact
    generated in the [i]-th iteration of the seeding loop. *)
Theorem seeded_contacts_are_fetchable draws i :
  (i < 50)%nat →
  get_contact (mock_id (1001 + Z.of_nat i)) (startup draws)
  = (Reply 200 (JObj (fresh_contact (draws i) (1000 + Z.of_nat i))),
     startup draws).
Proof.
  intros Hi. apply get_contact_stored; [apply ids_startup | |].
  - rewrite startup_spec. cbn [contacts_db].
    apply list_elem_of_lookup. exists i. by rewrite batch_lookup.
  - rewrite fresh_id. do 3 f_equal. lia.
Qed.

Lemma seeded_contacts_are_fetchable_witness :
  (7 < 50)%nat
  ∧ get_contact (mock_id (1001 + Z.of_nat 7)) (startup sample_draws)
    = (Reply 200 (JObj (fresh_contact (sample_draws 7) (1000 + Z.of_nat 7))),
       startup sample_draws).
Proof.
  assert (7 < 50)%nat as H1 by lia.
  refine (conj H1 _).
  exact (seeded_contacts_are_fetchable sample_draws 7 H1).
Defined.

(** ** The [since] filter *)

Lemma modified_after_ok sd db : ∀ f,
  modified_after sd db = ok f → f = List.filter (later_than sd) db.
Proof.
  induction db as [|c db IH]; intros f; cbn [modified_after List.filter].
  - by intros [= <-].
  - unfold later_than at 1. unfold timestamp at 1.
    destruct (getitem c "lastModified") as [e|v]; [done|].
    cbn [mbind result_bind].
    destruct (fromisoformat_value v) as [e|d]; [done|].
    cbn [mbind result_bind].
    destruct (datetime.gt d sd) as [e|b]; [done|].
    cbn [mbind result_bind].
    destruct (modified_after sd db) as [e|r]; [done|].
    cbn [mbind result_bind]. intros [= <-].
    rewrite <- (IH r eq_refl). by destruct b.
Qed.

Lemma modified_after_app sd l2 : ∀ l1 r1,
  modified_after sd l1 = ok r1 →
  modified_after sd (l1 ++ l2)
  = r2 ← modified_after sd l2; ok (r1 ++ r2).
Proof.
  induction l1 as [|c l1 IH]; intros r1; cbn [modified_after app].
  - intros [= <-]. by destruct (modified_after sd l2).
  - destruct (getitem c "lastModified") as [e|v]; [done|].
    cbn [mbind result_bind].
    destruct (fromisoformat_value v) as [e|d]; [done|].
    cbn [mbind result_bind].
    destruct (datetime.gt d sd) as [e|b]; [done|].
    cbn [mbind result_bind].
    destruct (modified_after sd l1) as [e|r]; [done|].
    cbn [mbind result_bind]. intros [= <-].
    rewrite (IH r eq_refl).
    destruct (modified_after sd l2) as [e|r2]; [done|].
    cbn [mbind result_bind]. by destruct b.
Qed.

Lemma filtered_contacts_since since db :
  since ≠ "" → filtered_contacts (Some since) db = filter_since since db.
Proof.
  intros Hne%String.eqb_neq. unfold filtered_contacts. by rewrite Hne.
Qed.

(** X10. Whenever a listing with a non-empty [since] is answered with
    status 200, [since] has parsed (after the replacement of [Z]) to a
    timestamp [sd], [total] is the number of stored contacts whose
    [lastModified] compares strictly greater than [sd], and the page is
    the slice of exactly those contacts, in store order. *)
Theorem since_listing_reports_later_contacts limit offset since now st body :
  since ≠ "" →
  (get_contacts limit offset (Some since) now st).1 = Reply 200 body →
  ∃ sd,
    datetime.fromisoformat (replace_Z since) = Some sd
    ∧ pagination (Reply 200 body) "total"
      = Some (JInt (Z.of_nat
                      (length (List.filter (later_than sd) (contacts_db st)))))
    ∧ listed (Reply 200 body)
      = Some (py_slice (List.filter (later_than sd) (contacts_db st))
                (arg_or 0 offset) (arg_or 0 offset + effective_limit limit)).
Proof.
  intros Hne. unfold get_contacts. rewrite filtered_contacts_since by done.
  unfold filter_since, fromisoformat_value.
  destruct (datetime.fromisoformat (replace_Z since)) as [sd|]; [|done].
  cbn [mbind result_bind ok].
  destruct (modified_after sd (contacts_db st)) as [[]|f] eqn:Hf; try done.
  apply modified_after_ok in Hf. subst f. cbn [fst]. intros [= <-].
  exists sd. split; [done|]. split.
  - apply pagination_listing_body.
  - apply listed_listing_body.
Qed.

Lemma since_listing_reports_later_contacts_witness :
  let since := "2024-01-12T12:00:00" in
  let body := listing_body
                [fresh_contact (dated_draws 3) 1003;
                 fresh_contact (dated_draws 4) 1004] 2 20 0 sample_now in
  since ≠ ""
  ∧ (get_contacts None None (Some since) sample_now dated_state).1
    = Reply 200 body
  ∧ ∃ sd,
      datetime.fromisoformat (replace_Z since) = Some sd
      ∧ pagination (Reply 200 body) "total"
        = Some (JInt (Z.of_nat
                        (length (List.filter (later_than sd)
                                   (contacts_db dated_state)))))
      ∧ listed (Reply 200 body)
        = Some (py_slice (List.filter (later_than sd) (contacts_db dated_state))
                  (arg_or 0 None) (arg_or 0 None + effective_limit None)).
Proof.
  intros since body.
  assert (since ≠ "") as H1 by done.
  assert ((get_contacts None None (Some since) sample_now dated_state).1
          = Reply 200 body) as H2 by (vm_compute; reflexivity).
  refine (conj H1 (conj H2 _)).
  exact (since_listing_reports_later_contacts None None since sample_now
           dated_state body H1 H2).
Defined.

Lemma naive_lastModified_ext (c c' : contact) :
  c !! "lastModified" = c' !! "lastModified" →
  naive_lastModified c = naive_lastModified c'.
Proof.
  intros H. unfold naive_lastModified, timestamp, getitem. by rewrite H.
Qed.

Lemma naive_batch draws i counter n :
  (∀ j, draw_ok (draws j) = true) →
  Forall (λ c, naive_lastModified c = true) (fresh_batch draws i counter n).
Proof.
  intros Hd. unfold fresh_batch. apply Forall_fmap, Forall_forall.
  intros j _. cbn. by apply fresh_naive_lastModified.
Qed.

Lemma naive_handle r st :
  plain_request r →
  Forall (λ c, naive_lastModified c = true) (contacts_db st) →
  Forall (λ c, naive_lastModified c = true) (contacts_db (handle r st).2).
Proof.
  intros Hr Hst.
  destruct r as [limit offset since now|cid|data d|count draws];
    cbn [handle plain_request] in *.
  - by rewrite get_contacts_state.
  - by rewrite get_contact_state.
  - destruct Hr as [Hd Hk].
    destruct (create_contact_cases data d st) as [[fields ->]|[->| ->]];
      [rewrite create_contact_object|..]; cbn [snd contacts_db]; [| |done].
    + apply Forall_app. split; [done|]. apply Forall_singleton.
      cbn [keeps_timestamps] in Hk. apply andb_prop in Hk as [_ Hk].
      apply has_key_false in Hk.
      rewrite (naive_lastModified_ext _ (fresh_contact d (contact_counter st))).
      * by apply fresh_naive_lastModified.
      * rewrite update_lookup, decide_False by done. by rewrite Hk.
    + apply Forall_app. split; [done|]. apply Forall_singleton.
      by apply fresh_naive_lastModified.
  - unfold simulate_new_contacts. rewrite simulate_loop_spec.
    cbn [snd contacts_db]. apply Forall_app. split; [done|].
    by apply naive_batch.
Qed.

Lemma naive_run draws rs :
  (∀ i, draw_ok (draws i) = true) →
  Forall plain_request rs →
  Forall (λ c, naive_lastModified c = true)
    (contacts_db (run rs (startup draws))).
Proof.
  intros Hd Hrs.
  assert (Forall (λ c, naive_lastModified c = true)
            (contacts_db (startup draws))) as H0.
  { rewrite startup_spec. by apply naive_batch. }
  revert H0. generalize (startup draws).
  induction Hrs as [|r rs Hr _ IH]; intros st Hst; [done|].
  apply IH. by apply naive_handle.
Qed.

Lemma get_contacts_naive since sd st :
  Forall (λ c, naive_lastModified c = true) (contacts_db st) →
  since ≠ "" →
  datetime.fromisoformat (replace_Z since) = Some sd →
  datetime.naive sd = true →
  filtered_contacts (Some since) (contacts_db st)
  = ok (List.filter (newer_than sd) (contacts_db st)).
Proof.
  intros Hdb Hne Hparse Hsd. rewrite filtered_contacts_since by done.
  unfold filter_since, fromisoformat_value. rewrite Hparse.
  cbn [mbind result_bind ok]. by apply modified_after_naive.
Qed.

(** X11. While the store holds only contacts whose timestamps come from
    the generator (start-up, [simulate_new_contacts], [create_contact]
    without a timestamp in the payload), a listing with a [since] that
    parses to a naive timestamp never fails: it answers 200, the page is
    the slice of the contacts modified strictly later than [since], and
    [total] counts them. *)
Theorem naive_since_listing_succeeds draws rs limit offset since sd now :
  let st := run rs (startup draws) in
  let later := List.filter (newer_than sd) (contacts_db st) in
  (∀ i, draw_ok (draws i) = true) →
  Forall plain_request rs →
  since ≠ "" →
  datetime.fromisoformat (replace_Z since) = Some sd →
  datetime.naive sd = true →
  get_contacts limit offset (Some since) now st
  = (Reply 200
       (listing_body
          (py_slice later (arg_or 0 offset)
             (arg_or 0 offset + effective_limit limit))
          (Z.of_nat (length later)) (effective_limit limit)
          (arg_or 0 offset) now),
     st).
Proof.
  intros st later Hd Hrs Hne Hparse Hsd.
  apply get_contacts_ok, (get_contacts_naive since sd st);
    [|done..].
  by apply naive_run.
Qed.

Lemma naive_since_listing_succeeds_witness :
  let rs := [SimulateNewContacts (Some 2) later_draws] in
  let since := "2024-01-22T00:00:00" in
  let sd := datetime.make 2024 1 22 0 0 0 0 None in
  let st := run rs (startup sample_draws) in
  let later := List.filter (newer_than sd) (contacts_db st) in
  (∀ i, draw_ok (sample_draws i) = true)
  ∧ Forall plain_request rs
  ∧ since ≠ ""
  ∧ datetime.fromisoformat (replace_Z since) = Some sd
  ∧ datetime.naive sd = true
  ∧ get_contacts None None (Some since) sample_now st
    = (Reply 200
         (listing_body
            (py_slice later (arg_or 0 None)
               (arg_or 0 None + effective_limit None))
            (Z.of_nat (length later)) (effective_limit None)
            (arg_or 0 None) sample_now),
       st).
Proof.
  intros rs since sd st later.
  assert (∀ i, draw_ok (sample_draws i) = true) as H1 by (intros i; reflexivity).
  assert (Forall plain_request rs) as H2 by repeat constructor.
  assert (since ≠ "") as H3 by done.
  assert (datetime.fromisoformat (replace_Z since) = Some sd) as H4
    by reflexivity.
  assert (datetime.naive sd = true) as H5 by reflexivity.
  refine (conj H1 (conj H2 (conj H3 (conj H4 (conj H5 _))))).
  exact (naive_since_listing_succeeds sample_draws rs None None since sd
           sample_now H1 H2 H3 H4 H5).
Defined.

Lemma modified_after_last sd db c :
  Forall (λ c, naive_lastModified c = true) db →
  datetime.naive sd = true →
  modified_after sd (db ++ [c])
  = r ← modified_after sd [c]; ok (List.filter (newer_than sd) db ++ r).
Proof.
  intros Hdb Hsd. apply modified_after_app. by apply modified_after_naive.
Qed.

Lemma overlay_lastModified c fields v :
  fields !! "lastModified" = Some v →
  update c (without_id fields) !! "lastModified" = Some v.
Proof.
  intros H. rewrite update_lookup, decide_False by done. by rewrite H.
Qed.

(** X12. A contact created with a [lastModified] that is a string but
    not a timestamp makes the [since] filter unusable: on a store whose
    other contacts have naive timestamps, every later listing with a
    non-empty [since] that parses to a naive timestamp is answered 400
    with the message about the format of [since], although [since] is
    fine. *)
Theorem unparsable_lastModified_breaks_since
    fields d bad limit offset since sd now st :
  let st' := (create_contact (JObj fields) d st).2 in
  Forall (λ c, naive_lastModified c = true) (contacts_db st) →
  fields !! "lastModified" = Some (JStr bad) →
  datetime.fromisoformat bad = None →
  since ≠ "" →
  datetime.fromisoformat (replace_Z since) = Some sd →
  datetime.naive sd = true →
  get_contacts limit offset (Some since) now st'
  = (Reply 400 (error_body "Invalid 'since' date format. Use ISO format."),
     st').
Proof.
  intros st' Hdb Hf Hbad Hne Hparse Hsd. unfold get_contacts.
  rewrite filtered_contacts_since by done.
  unfold filter_since, fromisoformat_value at 1. rewrite Hparse.
  cbn [mbind result_bind ok]. unfold st'.
  rewrite create_contact_object. cbn [snd contacts_db].
  rewrite modified_after_last by done. cbn [modified_after].
  unfold getitem. rewrite (overlay_lastModified _ _ _ Hf).
  cbn [mbind result_bind ok fromisoformat_value]. by rewrite Hbad.
Qed.

Lemma unparsable_lastModified_breaks_since_witness :
  let fields : gmap string json := {[ "lastModified" := JStr "yesterday" ]} in
  let since := "2024-01-01T00:00:00" in
  let sd := datetime.make 2024 1 1 0 0 0 0 None in
  let st' := (create_contact (JObj fields) sample_draw sample_state).2 in
  Forall (λ c, naive_lastModified c = true) (contacts_db sample_state)
  ∧ fields !! "lastModified" = Some (JStr "yesterday")
  ∧ datetime.fromisoformat "yesterday" = None
  ∧ since ≠ ""
  ∧ datetime.fromisoformat (replace_Z since) = Some sd
  ∧ datetime.naive sd = true
  ∧ get_contacts None None (Some since) sample_now st'
    = (Reply 400 (error_body "Invalid 'since' date format. Use ISO format."),
       st').
Proof.
  intros fields since sd st'.
  assert (Forall (λ c, naive_lastModified c = true) (contacts_db sample_state))
    as H1.
  { unfold sample_state. rewrite seed_loop_spec. apply naive_batch.
    intros i. reflexivity. }
  assert (fields !! "lastModified" = Some (JStr "yesterday")) as H2
    by reflexivity.
  assert (datetime.fromisoformat "yesterday" = None) as H3 by reflexivity.
  assert (since ≠ "") as H4 by done.
  assert (datetime.fromisoformat (replace_Z since) = Some sd) as H5
    by reflexivity.
  assert (datetime.naive sd = true) as H6 by reflexivity.
  refine (conj H1 (conj H2 (conj H3 (conj H4 (conj H5 (conj H6 _)))))).
  exact (unparsable_lastModified_breaks_since fields sample_draw "yesterday"
           None None since sd sample_now sample_state H1 H2 H3 H4 H5 H6).
Defined.

(** X13. A contact created with a [lastModified] that is not a string
    (a number, a list, [null], ...) makes every such listing end with an
    uncaught [TypeError]. *)
Theorem non_string_lastModified_crashes_since
    fields d v limit offset since sd now st :
  let st' := (create_contact (JObj fields) d st).2 in
  Forall (λ c, naive_lastModified c = true) (contacts_db st) →
  fields !! "lastModified" = Some v →
  match v with JStr _ => False | _ => True end →
  since ≠ "" →
  datetime.fromisoformat (replace_Z since) = Some sd →
  datetime.naive sd = true →
  get_contacts limit offset (Some since) now st' = (Crash TypeError, st').
Proof.
  intros st' Hdb Hf Hv Hne Hparse Hsd. unfold get_contacts.
  rewrite filtered_contacts_since by done.
  unfold filter_since, fromisoformat_value at 1. rewrite Hparse.
  cbn [mbind result_bind ok]. unfold st'.
  rewrite create_contact_object. cbn [snd contacts_db].
  rewrite modified_after_last by done. cbn [modified_after].
  unfold getitem. rewrite (overlay_lastModified _ _ _ Hf).
  cbn [mbind result_bind ok]. by destruct v.
Qed.

Lemma non_string_lastModified_crashes_since_witness :
  let fields : gmap string json := {[ "lastModified" := JInt 0 ]} in
  let since := "2024-01-01T00:00:00" in
  let sd := datetime.make 2024 1 1 0 0 0 0 None in
  let st' := (create_contact (JObj fields) sample_draw sample_state).2 in
  Forall (λ c, naive_lastModified c = true) (contacts_db sample_state)
  ∧ fields !! "lastModified" = Some (JInt 0)
  ∧ match JInt 0 with JStr _ => False | _ => True end
  ∧ since ≠ ""
  ∧ datetime.fromisoformat (replace_Z since) = Some sd
  ∧ datetime.naive sd = true
  ∧ get_contacts None None (Some since) sample_now st'
    = (Crash TypeError, st').
Proof.
  intros fields since sd st'.
  assert (Forall (λ c, naive_lastModified c = true) (contacts_db sample_state))
    as H1.
  { unfold sample_state. rewrite seed_loop_spec. apply naive_batch.
    intros i. reflexivity. }
  assert (fields !! "lastModified" = Some (JInt 0)) as H2 by reflexivity.
  assert (match JInt 0 with JStr _ => False | _ => True end) as H3 by exact I.
  assert (since ≠ "") as H4 by done.
  assert (datetime.fromisoformat (replace_Z since) = Some sd) as H5
    by reflexivity.
  assert (datetime.naive sd = true) as H6 by reflexivity.
  refine (conj H1 (conj H2 (conj H3 (conj H4 (conj H5 (conj H6 _)))))).
  exact (non_string_lastModified_crashes_since fields sample_draw (JInt 0)
           None None since sd sample_now sample_state H1 H2 H3 H4 H5 H6).
Defined.

(** ** Incremental synchronisation *)

Lemma listed_simulate_body new :
  listed (Reply 200 (simulate_body new)) = Some new.
Proof.
  unfold listed, simulate_body.
  rewrite lookup_insert_ne, lookup_singleton_eq by done.
  apply mapM_as_contact.
Qed.

Lemma filter_none {A} (p : A → bool) l :
  Forall (λ x, p x = false) l → List.filter p l = [].
Proof. induction 1 as [|x l Hx _ IH]; [done|]. cbn. by rewrite Hx. Qed.

Lemma filter_all {A} (p : A → bool) l :
  Forall (λ x, p x = true) l → List.filter p l = l.
Proof. induction 1 as [|x l Hx _ IH]; [done|]. cbn. by rewrite Hx, IH. Qed.

Lemma newer_than_fresh d n sd :
  draw_ok d = true → datetime.fields_cmp (now d) sd = Gt →
  newer_than sd (fresh_contact d n) = true.
Proof.
  intros (_ & _ & Hvn & Hnn & _)%draw_ok_inv Hgt. unfold newer_than.
  rewrite timestamp_fresh_lastModified by done. unfold ok. by rewrite Hgt.
Qed.

(** X14. Incremental synchronisation: when no stored contact is later
    than the sync point [since] (a naive timestamp, the stored ones being
    naive as well) and [simulate_new_contacts] then creates contacts at
    clock readings after it, the next listing with that [since] and the
    default paging returns exactly the contacts just created, in order,
    with [total] their number and [hasMore] false. *)
Theorem incremental_sync_returns_new_contacts count draws since sd clock st :
  let sim := simulate_new_contacts count draws st in
  let r := (get_contacts None None (Some since) clock sim.2).1 in
  Forall (λ c, naive_lastModified c = true) (contacts_db st) →
  Forall (λ c, newer_than sd c = false) (contacts_db st) →
  (∀ i, draw_ok (draws i) = true
        ∧ datetime.fields_cmp (now (draws i)) sd = Gt) →
  since ≠ "" →
  datetime.fromisoformat (replace_Z since) = Some sd →
  datetime.naive sd = true →
  ∃ new,
    listed sim.1 = Some new
    ∧ listed r = Some new
    ∧ pagination r "total" = Some (JInt (Z.of_nat (length new)))
    ∧ pagination r "hasMore" = Some (JBool false).
Proof.
  intros sim r Hnaive Hold Hdraws Hne Hparse Hsd.
  set (k := range_len (Z.min (arg_or 5 count) 20)).
  set (new := fresh_batch draws 0 (contact_counter st) k).
  assert (sim = (Reply 200 (simulate_body new),
                 mk_state (contacts_db st ++ new)
                          (contact_counter st + Z.of_nat k))) as Hsim.
  { unfold sim, simulate_new_contacts. by rewrite simulate_loop_spec. }
  assert (length new = k) as Hlen by apply batch_length.
  assert (Z.of_nat k ≤ 20) as Hk by (unfold k, range_len; lia).
  assert (filtered_contacts (Some since) (contacts_db sim.2) = ok new) as Hf.
  { rewrite Hsim. cbn [snd].
    rewrite (get_contacts_naive since sd); [|..|done|done|done];
      cbn [contacts_db].
    - rewrite List.filter_app, (filter_none _ _ Hold), filter_all; [done|].
      apply Forall_fmap, Forall_forall. intros j _. cbn.
      apply newer_than_fresh; apply Hdraws.
    - apply Forall_app. split; [done|]. apply naive_batch. apply Hdraws. }
  exists new. split; [rewrite Hsim; apply listed_simulate_body|].
  unfold r. rewrite (get_contacts_ok _ _ _ _ _ _ Hf). cbn [fst].
  change (arg_or 0 None) with 0. change (effective_limit None) with 20.
  split_and!.
  - rewrite listed_listing_body, (py_slice_nonneg _ 0 20) by done.
    change (Z.to_nat 0) with 0%nat. by rewrite drop_0, take_ge by lia.
  - apply pagination_listing_body.
  - rewrite (proj1 (pagination_listing_body _ _ _ _ _)). do 2 f_equal.
    apply Z.ltb_ge. lia.
Qed.

Lemma incremental_sync_returns_new_contacts_witness :
  let since := "2024-01-20T10:00:00.000005" in
  let sd := datetime.make 2024 1 20 10 0 0 5 None in
  let sim := simulate_new_contacts (Some 2) later_draws sample_state in
  let r := (get_contacts None None (Some since) sample_now sim.2).1 in
  Forall (λ c, naive_lastModified c = true) (contacts_db sample_state)
  ∧ Forall (λ c, newer_than sd c = false) (contacts_db sample_state)
  ∧ (∀ i, draw_ok (later_draws i) = true
          ∧ datetime.fields_cmp (now (later_draws i)) sd = Gt)
  ∧ since ≠ ""
  ∧ datetime.fromisoformat (replace_Z since) = Some sd
  ∧ datetime.naive sd = true
  ∧ ∃ new,
      listed sim.1 = Some new
      ∧ listed r = Some new
      ∧ pagination r "total" = Some (JInt (Z.of_nat (length new)))
      ∧ pagination r "hasMore" = Some (JBool false).
Proof.
  intros since sd sim r.
  assert (Forall (λ c, naive_lastModified c = true) (contacts_db sample_state))
    as H1.
  { unfold sample_state. rewrite seed_loop_spec. apply naive_batch.
    intros i. reflexivity. }
  assert (Forall (λ c, newer_than sd c = false) (contacts_db sample_state))
    as H2.
  { unfold sample_state. rewrite seed_loop_spec. cbn [contacts_db app].
    apply Forall_fmap, Forall_forall. intros j _. unfold compose, newer_than.
    by rewrite timestamp_fresh_lastModified. }
  assert (∀ i, draw_ok (later_draws i) = true
               ∧ datetime.fields_cmp (now (later_draws i)) sd = Gt) as H3
    by (intros i; split; reflexivity).
  assert (since ≠ "") as H4 by done.
  assert (datetime.fromisoformat (replace_Z since) = Some sd) as H5
    by reflexivity.
  assert (datetime.naive sd = true) as H6 by reflexivity.
  refine (conj H1 (conj H2 (conj H3 (conj H4 (conj H5 (conj H6 _)))))).
  exact (incremental_sync_returns_new_contacts (Some 2) later_draws since sd
           sample_now sample_state H1 H2 H3 H4 H5 H6).
Defined.

(** ** Creation: edge cases and generated values *)

(** X15. A payload that is true in Python's sense without being an
    object (a non-empty list or string, a non-zero number, [true]) makes
    [create_contact] end with an uncaught [AttributeError]: nothing is
    stored, but the generator has already advanced the counter, so the id
    it made is never used and the next contact created gets the id after
    it. *)
Theorem non_object_payload_crashes_and_skips_an_id data d fields d' st :
  let failed := create_contact data d st in
  truthy data = true →
  match data with JObj _ => False | _ => True end →
  failed = (Crash AttributeError,
            mk_state (contacts_db st) (contact_counter st + 1))
  ∧ ∃ c,
      create_contact (JObj fields) d' failed.2
      = (Reply 201 (JObj c),
         mk_state (contacts_db st ++ [c]) (contact_counter st + 2))
      ∧ c !! "id" = Some (JStr (mock_id (contact_counter st + 2))).
Proof.
  intros failed Ht Hd.
  assert (failed = (Crash AttributeError,
                    mk_state (contacts_db st) (contact_counter st + 1)))
    as Hfailed by by apply create_contact_non_object.
  split; [done|]. rewrite Hfailed, create_contact_object.
  cbn [snd contacts_db contact_counter].
  replace (contact_counter st + 1 + 1) with (contact_counter st + 2) by lia.
  eexists. split; [done|].
  rewrite update_lookup, decide_True by done. rewrite fresh_id.
  do 3 f_equal. lia.
Qed.

Lemma non_object_payload_crashes_and_skips_an_id_witness :
  let data := JList [JInt 1] in
  let fields : gmap string json := {[ "firstName" := JStr "Alice" ]} in
  let failed := create_contact data sample_draw sample_state in
  truthy data = true
  ∧ match data with JObj _ => False | _ => True end
  ∧ failed = (Crash AttributeError,
              mk_state (contacts_db sample_state)
                       (contact_counter sample_state + 1))
  ∧ ∃ c,
      create_contact (JObj fields) (later_draws 0%nat) failed.2
      = (Reply 201 (JObj c),
         mk_state (contacts_db sample_state ++ [c])
                  (contact_counter sample_state + 2))
      ∧ c !! "id" = Some (JStr (mock_id (contact_counter sample_state + 2))).
Proof.
  intros data fields failed.
  assert (truthy data = true) as H1 by reflexivity.
  assert (match data with JObj _ => False | _ => True end) as H2 by exact I.
  refine (conj H1 (conj H2 _)).
  exact (non_object_payload_crashes_and_skips_an_id data sample_draw fields
           (later_draws 0%nat) sample_state H1 H2).
Defined.

(** X16. Round trip of the generated timestamps: for a draw whose two
    instants are valid naive datetimes, the [createdAt] and
    [lastModified] strings that [generate_mock_contact] writes with
    [isoformat] are read back by [fromisoformat], as the [since] filter
    does, to the very instants drawn. *)
Theorem generated_timestamps_parse_back d st :
  let c := (generate_mock_contact d st).1 in
  datetime.valid (created_at d) = true →
  datetime.naive (created_at d) = true →
  datetime.valid (now d) = true →
  datetime.naive (now d) = true →
  timestamp c "createdAt" = ok (created_at d)
  ∧ timestamp c "lastModified" = ok (now d).
Proof.
  intros c Hvc Hnc Hvn Hnn. unfold c. rewrite generate_fresh.
  split; [by apply timestamp_fresh_createdAt
         | by apply timestamp_fresh_lastModified].
Qed.

Lemma generated_timestamps_parse_back_witness :
  let c := (generate_mock_contact sample_draw sample_state).1 in
  datetime.valid (created_at sample_draw) = true
  ∧ datetime.naive (created_at sample_draw) = true
  ∧ datetime.valid (now sample_draw) = true
  ∧ datetime.naive (now sample_draw) = true
  ∧ timestamp c "createdAt" = ok (created_at sample_draw)
  ∧ timestamp c "lastModified" = ok (now sample_draw).
Proof.
  intros c.
  assert (datetime.valid (created_at sample_draw) = true) as H1 by reflexivity.
  assert (datetime.naive (created_at sample_draw) = true) as H2 by reflexivity.
  assert (datetime.valid (now sample_draw) = true) as H3 by reflexivity.
  assert (datetime.naive (now sample_draw) = true) as H4 by reflexivity.
  refine (conj H1 (conj H2 (conj H3 (conj H4 _)))).
  exact (generated_timestamps_parse_back sample_draw sample_state
           H1 H2 H3 H4).
Defined.

(** X17. The contacts that [simulate_new_contacts] returns carry, in
    order, the ids made from the counter values that follow the current
    one: [mock_crm_(counter + 1)] up to [mock_crm_(counter + k)], [k]
    being the count clamped to [0, 20]; afterwards the counter stands at
    [counter + k]. *)
Theorem simulate_ids_are_consecutive count draws st :
  let k := clamp 0 20 (arg_or 5 count) in
  let sim := simulate_new_contacts count draws st in
  contact_counter sim.2 = contact_counter st + k
  ∧ ∃ new,
      listed sim.1 = Some new
      ∧ contact_ids new = ids_of_counters (seqZ (contact_counter st + 1) k).
Proof.
  intros k sim. unfold sim, simulate_new_contacts.
  rewrite simulate_loop_spec. cbn [fst snd contact_counter].
  assert (Z.of_nat (range_len (Z.min (arg_or 5 count) 20)) = k) as Hk.
  { unfold range_len, k, clamp. lia. }
  split; [by rewrite Hk|].
  eexists. split; [apply listed_simulate_body|].
  by rewrite app_nil_l, batch_ids, Hk.
Qed.

(** ** A [since] with a UTC offset *)

Lemma first_contact_after_startup draws rs :
  ∃ rest,
    contacts_db (run rs (startup draws))
    = fresh_contact (draws 0%nat) 1000 :: rest.
Proof.
  destruct (run_prefix rs (startup draws)) as [k ->].
  rewrite startup_spec. cbn [contacts_db].
  rewrite (batch_S draws 0 1000 49). eauto.
Qed.

(** X18. After start-up with draws as the generator expects them, and
    whatever requests have been served since, every listing whose
    non-empty [since] parses to a timestamp with a UTC offset (as any
    [since] ending in [Z] does once [Z] is replaced by [+00:00]) ends
    with an uncaught [TypeError]: the first seeded contact has a naive
    [lastModified]. *)
Theorem since_with_offset_always_crashes draws rs limit offset since sd clock :
  let st := run rs (startup draws) in
  draw_ok (draws 0%nat) = true →
  since ≠ "" →
  datetime.fromisoformat (replace_Z since) = Some sd →
  datetime.naive sd = false →
  get_contacts limit offset (Some since) clock st = (Crash TypeError, st).
Proof.
  intros st Hd Hne Hparse Hsd.
  destruct (first_contact_after_startup draws rs) as [rest Hdb].
  eapply aware_since_crashes; [exact Hdb| |done..].
  by apply fresh_naive_lastModified.
Qed.

Lemma since_with_offset_always_crashes_witness :
  let rs := [CreateContact (JObj {[ "firstName" := JStr "Alice" ]})
               sample_draw;
             GetContact "mock_crm_1001"] in
  let since := "2024-01-20T12:00:00+02:00" in
  let sd := datetime.make 2024 1 20 12 0 0 0 (Some 7200000000) in
  let st := run rs (startup sample_draws) in
  draw_ok (sample_draws 0%nat) = true
  ∧ since ≠ ""
  ∧ datetime.fromisoformat (replace_Z since) = Some sd
  ∧ datetime.naive sd = false
  ∧ get_contacts None None (Some since) sample_now st = (Crash TypeError, st).
Proof.
  intros rs since sd st.
  assert (draw_ok (sample_draws 0%nat) = true) as H1 by reflexivity.
  assert (since ≠ "") as H2 by done.
  assert (datetime.fromisoformat (replace_Z since) = Some sd) as H3
    by reflexivity.
  assert (datetime.naive sd = false) as H4 by reflexivity.
  refine (conj H1 (conj H2 (conj H3 (conj H4 _)))).
  exact (since_with_offset_always_crashes sample_draws rs None None since sd
           sample_now H1 H2 H3 H4).
Defined.
